(** * A shallow embedding of the Telegram bot of [main.py]

    The bot answers free-text messages ([handle_message]) and inline-button
    presses ([handle_callback]); it keeps per-conversation flags in
    [context.user_data] and persists game progress in PostgreSQL through
    ten small accessors that all share one try / except / finally shape.

    The development follows the file top-down: Python strings, the store
    accessors, the four mini-game engines, the two routers, and then the
    properties of the specification. *)

From Stdlib Require Import ZArith List Lia Bool.
From stdpp Require Import base option list gmap strings.
Import ListNotations.

Open Scope Z_scope.

(** ** Python strings

    A Python [str] is a sequence of Unicode code points; [city[0]],
    [last_letter[-1]] and [in 'ьъ'] all work on code points, so the
    Cyrillic text of the bot is kept as a list of code points and not as
    UTF-8 bytes. *)

Abbreviation char := N (only parsing).
Abbreviation str := (list N) (only parsing).

Module Utf8.

(** Decoder used only to write the string literals of the source
    legibly: the bytes of a literal are folded into code points. *)
Definition step (st : list N * N * nat) (b : N) : list N * N * nat :=
  let '(out, acc, pending) := st in
  match pending with
  | S k =>
      let acc' := (acc * 64 + (b - 128))%N in
      match k with
      | O => (acc' :: out, 0%N, O)
      | _ => (out, acc', k)
      end
  | O =>
      if (b <? 128)%N then (b :: out, 0%N, O)
      else if (b <? 224)%N then (out, (b - 192)%N, 1%nat)
      else if (b <? 240)%N then (out, (b - 224)%N, 2%nat)
      else (out, (b - 240)%N, 3%nat)
  end.

Definition decode (bytes : list N) : list N :=
  rev (fst (fst (fold_left step bytes ([], 0%N, O)))).

Fixpoint bytes_of (s : string) : list N :=
  match s with
  | EmptyString => []
  | String a s' => Ascii.N_of_ascii a :: bytes_of s'
  end.

End Utf8.

(** [u "текст"] is the Python literal ["текст"]. *)
Definition u (s : string) : str := Utf8.decode (Utf8.bytes_of s).

Module Py.

(** [str.isspace] on one code point: the code points with the Unicode
    White_Space property or bidirectional type WS, B or S. *)
Definition isspace (c : char) : bool :=
  ((9 <=? c) && (c <=? 13) || (28 <=? c) && (c <=? 32)
   || (c =? 133) || (c =? 160) || (c =? 5760)
   || (8192 <=? c) && (c <=? 8202)
   || (c =? 8232) || (c =? 8233) || (c =? 8239) || (c =? 8287)
   || (c =? 12288))%N.

Fixpoint lstrip (s : str) : str :=
  match s with
  | c :: s' => if isspace c then lstrip s' else s
  | [] => []
  end.

Definition rstrip (s : str) : str := rev (lstrip (rev s)).

(** [s.strip()] *)
Definition strip (s : str) : str := rstrip (lstrip s).

(** [s.startswith(p)] *)
Fixpoint startswith (s p : str) {struct p} : bool :=
  match p, s with
  | [], _ => true
  | a :: p', b :: s' => (a =? b)%N && startswith s' p'
  | _ :: _, [] => false
  end.

(** [s.split(sep)] for a one-character separator: never empty, cuts at
    every occurrence, keeps empty fields. *)
Fixpoint split (sep : char) (s : str) : list str :=
  match s with
  | [] => [[]]
  | c :: s' =>
      match split sep s' with
      | [] => [[]]     (* unreachable: split never returns [] *)
      | f :: fs => if (c =? sep)%N then [] :: f :: fs else (c :: f) :: fs
      end
  end.

(** [s[-1]] as an optional code point and [s[:-1]]. *)
Definition last_char (s : str) : option char := last s.
Definition drop_last (s : str) : str := removelast s.

End Py.


(** ** What the program takes from outside

    [str.lower] and [int] are library functions whose Unicode tables are
    not part of the program, [cities.txt] is a data file and the weather
    digest comes from an HTTP service.  The embedding takes them as an
    interface; every theorem below holds for all of its instances. *)

Class Platform := {
  (** [s.lower()] *)
  str_lower : str → str;
  (** [int(s)]: [None] stands for [ValueError] *)
  int_of_str : str → option Z;
  (** the set read from [cities.txt] *)
  VALID_CITIES : gset str;
  (** [get_forecast(city)]: total, both failure paths return a text *)
  get_forecast : str → str
}.

(** ** Values, state blob, tables *)

(** Values stored in [context.user_data]. *)
Inductive pyval :=
| PyBool (b : bool)
| PyStr (s : str).

#[global] Instance pyval_eq_dec : EqDecision pyval.
Proof. solve_decision. Defined.

(** Python truthiness of [user_data.get(key)]. *)
Definition truthy (v : option pyval) : bool :=
  match v with
  | None => false
  | Some (PyBool b) => b
  | Some (PyStr s) => negb (bool_decide (s = []))
  end.

(** The JSON object of [game_progress.state], as a typed view: these are
    the only keys the program ever stores, each with the only type it
    stores under it.  An absent key is [None]. *)
Record jstate := JState {
  last_city : option str;
  used_cities : option (list str);
  target : option Z;
  attempts : option Z;
  stage : option Z;
  riddle_idx : option Z
}.

#[global] Instance jstate_eq_dec : EqDecision jstate.
Proof. solve_decision. Defined.

(** [{}] *)
Definition empty_state : jstate := JState None None None None None None.

Definition set_cities (last : str) (used : list str) (st : jstate) : jstate :=
  JState (Some last) (Some used) (target st) (attempts st) (stage st) (riddle_idx st).
Definition set_target (t : Z) (st : jstate) : jstate :=
  JState (last_city st) (used_cities st) (Some t) (attempts st) (stage st) (riddle_idx st).
Definition set_attempts (a : Z) (st : jstate) : jstate :=
  JState (last_city st) (used_cities st) (target st) (Some a) (stage st) (riddle_idx st).
Definition set_stage (n : Z) (st : jstate) : jstate :=
  JState (last_city st) (used_cities st) (target st) (attempts st) (Some n) (riddle_idx st).
Definition set_riddle_idx (n : Z) (st : jstate) : jstate :=
  JState (last_city st) (used_cities st) (target st) (attempts st) (stage st) (Some n).

(** One row of [game_progress]. *)
Record progress := Progress {
  game_name : option str;
  score : Z;
  state : jstate
}.

#[global] Instance progress_eq_dec : EqDecision progress.
Proof. solve_decision. Defined.

(** The six tables of [init_db]; timestamps and serial ids are left out. *)
Record database := Database {
  weather_requests : list (Z * str);
  favorite_cities : list (Z * str);
  game_progress : gmap Z progress;
  user_achievements : list (Z * str);
  user_stars : gmap Z Z;
  game_results : list (Z * str * Z)
}.

Definition empty_db : database := Database [] [] ∅ [] ∅ [].

(** ** Literals of the source *)

Definition AWAITING_CITY : str := Eval cbv in u "awaiting_city".
Definition AWAITING_GAME : str := Eval cbv in u "awaiting_game".
Definition CITIES : str := Eval cbv in u "Cities".
Definition GUESS : str := Eval cbv in u "Guess".
Definition QUEST : str := Eval cbv in u "Quest".
Definition LOGIC : str := Eval cbv in u "Logic".
Definition MENU : str := Eval cbv in u "Меню".
Definition SIGNS : str := Eval cbv in u "ьъ".
Definition UNDERSCORE : char := 95%N.
Definition SAVE_CITY_ : str := Eval cbv in u "save_city_".

(** Button payloads ([callback_data]). *)
Definition D_WEATHER : str := Eval cbv in u "weather".
Definition D_ADMIN : str := Eval cbv in u "admin".
Definition D_FAVORITE_WEATHER : str := Eval cbv in u "favorite_weather".
Definition D_PLAY : str := Eval cbv in u "play".
Definition D_GAME_CITIES : str := Eval cbv in u "game_cities".
Definition D_GAME_GUESS : str := Eval cbv in u "game_guess".
Definition D_GAME_QUEST : str := Eval cbv in u "game_quest".
Definition D_GAME_LOGIC : str := Eval cbv in u "game_logic".
Definition D_MAIN : str := Eval cbv in u "main".

Definition QUEST_STAGES : list str :=
  [ u "Ты в тёмном лесу. Куда пойдёшь? (вперёд/назад)";
    u "Ты нашёл сундук. Открыть? (да/нет)";
    u "Внутри сундука ключ. Взять? (да/нет)" ].

Definition QUEST_ANSWERS : list str := Eval cbv in [ u "вперёд"; u "да" ].

Record riddle_entry := Riddle { riddle : str; answer : str }.

Definition LOGIC_RIDDLES : list riddle_entry :=
  [ Riddle (u "Число: 2, 4, 6, ?. Какое следующее?") (u "8");
    Riddle (u "Что всегда идёт, но никогда не приходит?") (u "время");
    Riddle (u "У меня есть города, но нет домов. Что я?") (u "карта") ].

Definition ACH_CITIES : str := u "Мастер городов".
Definition ACH_GUESS : str := u "Мастер угадывания".
Definition ACH_QUEST : str := u "Мастер приключений".
Definition ACH_LOGIC : str := u "Мастер логики".

(** ** Effects

    A handler runs against the tables, the flags of the conversation, the
    environment's choices (which driver call fails next, what [random]
    draws next) and leaves a trace of what it sent and logged.  A handler
    either returns or raises. *)

Inductive exn :=
| UnboundLocalError
| ValueError
| TypeError
| IndexError.

Inductive outcome (A : Type) :=
| Return (a : A)
| Raise (e : exn).
Arguments Return {A} a.
Arguments Raise {A} e.

(** Which driver call of the next accessor raises, if any. *)
Inductive fault :=
| NoFault
| ConnectError      (* psycopg2.connect(DATABASE_URL) raises *)
| CursorError       (* conn.cursor() raises *)
| StatementError.   (* cursor.execute / fetchone / conn.commit raises *)

#[global] Instance fault_eq_dec : EqDecision fault.
Proof. solve_decision. Defined.

Inductive keyboard :=
| NoKeyboard
| MAIN_KEYBOARD
| GAMES_KEYBOARD
| SaveCityKeyboard (callback_data : str).

#[global] Instance keyboard_eq_dec : EqDecision keyboard.
Proof. solve_decision. Defined.

(** Message texts: literals, and one constructor per f-string of
    [handle_message] with the values it interpolates. *)
Inductive message :=
| Text (s : str)
| FCitiesLetter (last_letter : str)
| FCitiesAward (bot_city : str) (score : Z)
| FCitiesNext (bot_city : str) (score : Z)
| FCitiesWin (next_letter : str) (score : Z)
| FGuessAward (attempts score : Z)
| FGuessNext (attempts score : Z)
| FQuestAward (score : Z)
| FQuestDone (score : Z)
| FLogicAward (score : Z)
| FLogicNext (score : Z) (next_riddle : str)
| FLogicWrong (answer : str)
| FAdminNotice (user_id : Z).

Inductive accessor_name :=
| Alog_weather_request | Asave_favorite_city | Aget_favorite_city
| Astart_game | Aupdate_game_state | Aget_game_state
| Aaward_achievement | Aget_stars | Aupdate_stars | Asave_game_result.

Inductive event :=
| reply_text (text : message) (reply_markup : keyboard)
| edit_message_text (text : message) (reply_markup : keyboard)
| send_sticker
| send_message_admin (text : message)
| logger_info
| logger_error (source : accessor_name).

Record world := World {
  db : database;
  user_data : gmap str pyval;
  faults : list fault;
  rng : list nat;
  trace : list event
}.

Definition M (A : Type) : Type := world → outcome A * world.

#[global] Instance M_ret : MRet M := λ A a w, (Return a, w).
#[global] Instance M_bind : MBind M := λ A B k m w,
  match m w with
  | (Return a, w') => k a w'
  | (Raise e, w') => (Raise e, w')
  end.

Definition raise {A} (e : exn) : M A := λ w, (Raise e, w).

Definition emit (ev : event) : M unit := λ w,
  (Return (), World (db w) (user_data w) (faults w) (rng w) (trace w ++ [ev])).

(** [context.user_data[key] = v] *)
Definition set_flag (key : str) (v : pyval) : M unit := λ w,
  (Return (), World (db w) (<[key := v]> (user_data w)) (faults w) (rng w) (trace w)).

(** [context.user_data.clear()] *)
Definition clear_flags : M unit := λ w,
  (Return (), World (db w) ∅ (faults w) (rng w) (trace w)).

(** [context.user_data.get(key)] *)
Definition get_flag (key : str) : M (option pyval) := λ w,
  (Return (user_data w !! key), w).

Definition next_random : M nat := λ w,
  match rng w with
  | [] => (Return O, w)
  | n :: ns => (Return n, World (db w) (user_data w) (faults w) ns (trace w))
  end.

(** [random.choice(l) if l else None] *)
Definition random_choice (l : list str) : M (option str) :=
  match l with
  | [] => mret None
  | _ => n ← next_random; mret (l !! (n mod length l)%nat)
  end.

(** [random.randint(1, 100)] *)
Definition randint_1_100 : M Z :=
  n ← next_random; mret (1 + Z.of_nat (n mod 100)%nat).

(** ** The store accessors

    All ten accessors are written the same way:
<<
    try:
        conn = psycopg2.connect(DATABASE_URL)
        cursor = conn.cursor()
        ... statement, commit, return value ...
    except Exception as e:
        logger.error(...)
        return default        # absent in the accessors that return nothing
    finally:
        cursor.close()
        conn.close()
>>
    [conn] and [cursor] are local names, bound only once the call on the
    right of [=] has returned.  The [finally] block runs on every path and
    reads [cursor] first: when it is unbound that read raises
    [UnboundLocalError], which replaces the pending return of the
    [except] block. *)

Definition accessor {R} (name : accessor_name) (default : R)
    (statement : database → R * database) : M R := λ w0,
  let f := hd NoFault (faults w0) in
  let w := World (db w0) (user_data w0) (tl (faults w0)) (rng w0) (trace w0) in
  (* try *)
  let conn : option unit :=
    if decide (f = ConnectError) then None else Some () in
  let cursor : option unit :=
    match conn with
    | None => None
    | Some _ => if decide (f = CursorError) then None else Some ()
    end in
  let body : option (R * database) :=
    match cursor with
    | None => None
    | Some _ => if decide (f = StatementError) then None else Some (statement (db w))
    end in
  (* except Exception *)
  let '(r, w1) :=
    match body with
    | Some (r, d) => (r, World d (user_data w) (faults w) (rng w) (trace w))
    | None => (default,
               World (db w) (user_data w) (faults w) (rng w)
                     (trace w ++ [logger_error name]))
    end in
  (* finally: cursor.close(); conn.close() *)
  match cursor with
  | None => (Raise UnboundLocalError, w1)
  | Some _ => (Return r, w1)
  end.

(** [INSERT ... ON CONFLICT DO NOTHING] into a table whose whole row is
    the primary key. *)
Definition insert_unique {A} `{EqDecision A} (row : A) (table : list A) : list A :=
  if decide (row ∈ table) then table else table ++ [row].

Definition with_weather_requests (t : list (Z * str)) (d : database) : database :=
  Database t (favorite_cities d) (game_progress d) (user_achievements d)
           (user_stars d) (game_results d).
Definition with_favorite_cities (t : list (Z * str)) (d : database) : database :=
  Database (weather_requests d) t (game_progress d) (user_achievements d)
           (user_stars d) (game_results d).
Definition with_game_progress (t : gmap Z progress) (d : database) : database :=
  Database (weather_requests d) (favorite_cities d) t (user_achievements d)
           (user_stars d) (game_results d).
Definition with_user_achievements (t : list (Z * str)) (d : database) : database :=
  Database (weather_requests d) (favorite_cities d) (game_progress d) t
           (user_stars d) (game_results d).
Definition with_user_stars (t : gmap Z Z) (d : database) : database :=
  Database (weather_requests d) (favorite_cities d) (game_progress d)
           (user_achievements d) t (game_results d).
Definition with_game_results (t : list (Z * str * Z)) (d : database) : database :=
  Database (weather_requests d) (favorite_cities d) (game_progress d)
           (user_achievements d) (user_stars d) t.

Definition log_weather_request (user_id : Z) (city : str) : M unit :=
  accessor Alog_weather_request ()
    (λ d, ((), with_weather_requests (weather_requests d ++ [(user_id, city)]) d)).

Definition save_favorite_city (user_id : Z) (city : str) : M unit :=
  accessor Asave_favorite_city ()
    (λ d, ((), with_favorite_cities (insert_unique (user_id, city) (favorite_cities d)) d)).

(** [SELECT city ... WHERE user_id = %s LIMIT 1]: some row of the user,
    here the oldest one. *)
Definition get_favorite_city (user_id : Z) : M (option str) :=
  accessor Aget_favorite_city None
    (λ d, (snd <$> head (filter (λ r, r.1 = user_id) (favorite_cities d)), d)).

Definition start_game (user_id : Z) (game : str) : M unit :=
  accessor Astart_game ()
    (λ d, ((), with_game_progress
                 (<[user_id := Progress (Some game) 0 empty_state]> (game_progress d)) d)).

(** [UPDATE game_progress SET score, state WHERE user_id]: no row, no change. *)
Definition update_game_state (user_id : Z) (new_score : Z) (new_state : jstate) : M unit :=
  accessor Aupdate_game_state ()
    (λ d, ((), with_game_progress
                 (alter (λ r, Progress (game_name r) new_score new_state) user_id
                        (game_progress d)) d)).

Definition get_game_state (user_id : Z) : M (option str * Z * jstate) :=
  accessor Aget_game_state (None, 0, empty_state)
    (λ d, (match game_progress d !! user_id with
           | Some r => (game_name r, score r, state r)
           | None => (None, 0, empty_state)
           end, d)).

Definition award_achievement (user_id : Z) (achievement : str) : M unit :=
  accessor Aaward_achievement ()
    (λ d, ((), with_user_achievements
                 (insert_unique (user_id, achievement) (user_achievements d)) d)).

Definition get_stars (user_id : Z) : M Z :=
  accessor Aget_stars 0
    (λ d, match user_stars d !! user_id with
          | Some n => (n, d)
          | None => (0, with_user_stars (<[user_id := 0]> (user_stars d)) d)
          end).

Definition update_stars (user_id : Z) (amount : Z) : M unit :=
  accessor Aupdate_stars ()
    (λ d, ((), with_user_stars
                 (<[user_id := match user_stars d !! user_id with
                               | Some n => n + amount
                               | None => amount
                               end]> (user_stars d)) d)).

Definition save_game_result (user_id : Z) (game : str) (final : Z) : M unit :=
  accessor Asave_game_result ()
    (λ d, ((), with_game_results (game_results d ++ [(user_id, game, final)]) d)).

(** ** Helpers of the City-Chain engine *)

(** The loop
<<
    while last_letter and last_letter[-1] in 'ьъ':
        last_letter = last_letter[:-1]
>>
    Every iteration shortens the string, so [length s] iterations are
    enough ([strip_signs_done] below). *)
Fixpoint strip_signs_loop (fuel : nat) (s : str) : str :=
  match fuel with
  | O => s
  | S fuel' =>
      match Py.last_char s with
      | Some c => if bool_decide (c ∈ SIGNS) then strip_signs_loop fuel' (Py.drop_last s) else s
      | None => s
      end
  end.

Definition strip_signs (s : str) : str := strip_signs_loop (length s) s.

(** [last_letter = last_letter[-1] if last_letter else ''] after the loop. *)
Definition playable_letter (s : str) : str :=
  match Py.last_char (strip_signs s) with
  | Some c => [c]
  | None => []
  end.

(** [l[i]] with Python's negative indices; [None] stands for [IndexError]. *)
Definition py_index {A} (l : list A) (i : Z) : option A :=
  if 0 <=? i then l !! Z.to_nat i
  else if 0 <=? i + Z.of_nat (length l) then l !! Z.to_nat (i + Z.of_nat (length l))
  else None.

Definition index_or_raise {A} (l : list A) (i : Z) : M A :=
  match py_index l i with
  | Some x => mret x
  | None => raise IndexError
  end.

(** Literal replies of [handle_message]. *)
Definition T_MENU : message := Text (u "Вы вернулись в главное меню:").
Definition T_NOT_CITIES : message := Text (u "Вы не играете в 'Города' сейчас.").
Definition T_NOT_GUESS : message := Text (u "Вы не играете в 'Угадай число' сейчас.").
Definition T_NOT_QUEST : message := Text (u "Вы не играете в 'Квест' сейчас.").
Definition T_NOT_LOGIC : message := Text (u "Вы не играете в 'Логику' сейчас.").
Definition T_CITY_INVALID : message :=
  Text (u "Неверный город или его нет в списке. Назови другой город или напиши 'Меню' для выхода.").
Definition T_CITY_USED : message :=
  Text (u "Этот город уже был назван! Назови другой город или напиши 'Меню' для выхода.").
Definition T_LARGER : message := Text (u "Моё число больше. Попробуй ещё:").
Definition T_SMALLER : message := Text (u "Моё число меньше. Попробуй ещё:").
Definition T_FORMAT_HINT : message :=
  Text (u "Введи число от 1 до 100! Или напиши 'Меню' для выхода.").
Definition T_QUEST_FAILED : message := Text (u "Неверный выбор, квест провален!").

Section Handlers.

Context `{Platform}.

(** *** City-Chain, lines 299-358 *)
Definition cities_turn (user_id : Z) (text : str) : M unit :=
  let city := str_lower (Py.strip text) in
  '(game_name, score, state) ← get_game_state user_id;
  if decide (game_name ≠ Some CITIES) then
    emit (reply_text T_NOT_CITIES MAIN_KEYBOARD);;
    set_flag AWAITING_GAME (PyBool false)
  else
    let last_city := default [] (last_city state) in
    let used_cities := default [] (used_cities state) in
    if decide (city ∉ VALID_CITIES) then
      emit (reply_text T_CITY_INVALID NoKeyboard)
    else if decide (city ∈ used_cities) then
      emit (reply_text T_CITY_USED NoKeyboard)
    else
      let last_letter := playable_letter last_city in
      (* last_city and city[0] != last_letter *)
      wrong ← match last_city with
              | [] => mret false
              | _ => c ← index_or_raise city 0;
                     mret (bool_decide ([c] ≠ last_letter))
              end;
      if (wrong : bool) then
        emit (reply_text (FCitiesLetter last_letter) NoKeyboard)
      else
        let score := score + 10 in
        let used_cities := used_cities ++ [city] in
        let next_letter := playable_letter city in
        let available_cities :=
          filter (λ c, Py.startswith c next_letter = true ∧ c ∉ used_cities)
                 (elements VALID_CITIES) in
        bot_city ← random_choice available_cities;
        match bot_city with
        | Some ((_ :: _) as bot_city) =>
            let used_cities := used_cities ++ [bot_city] in
            let state := set_cities bot_city used_cities state in
            update_game_state user_id score state;;
            save_game_result user_id CITIES score;;
            if decide (score >= 100) then
              award_achievement user_id ACH_CITIES;;
              emit send_sticker;;
              emit (reply_text (FCitiesAward bot_city score) MAIN_KEYBOARD);;
              update_stars user_id 10;;
              set_flag AWAITING_GAME (PyBool false)
            else
              emit (reply_text (FCitiesNext bot_city score) NoKeyboard)
        | _ =>
            save_game_result user_id CITIES score;;
            emit (reply_text (FCitiesWin next_letter score) MAIN_KEYBOARD);;
            (if decide (score >= 100) then
               award_achievement user_id ACH_CITIES;;
               emit send_sticker;;
               update_stars user_id 10
             else mret ());;
            set_flag AWAITING_GAME (PyBool false)
        end.

(** *** Number-Guessing, lines 360-397.  The whole body sits in a [try]
    whose only handler is [except ValueError]. *)
Definition guess_body (user_id : Z) (text : str) : M unit :=
  guess ← match int_of_str (Py.strip text) with
          | Some g => mret g
          | None => raise ValueError
          end;
  '(game_name, score, state) ← get_game_state user_id;
  if decide (game_name ≠ Some GUESS) then
    emit (reply_text T_NOT_GUESS MAIN_KEYBOARD);;
    set_flag AWAITING_GAME (PyBool false)
  else
    let target := target state in
    let attempts := default 0 (attempts state) + 1 in
    if decide (Some guess = target) then
      let score := score + 10 in
      let state := set_attempts attempts state in
      update_game_state user_id score state;;
      save_game_result user_id GUESS score;;
      if decide (score >= 100) then
        award_achievement user_id ACH_GUESS;;
        emit send_sticker;;
        emit (reply_text (FGuessAward attempts score) MAIN_KEYBOARD);;
        update_stars user_id 10;;
        set_flag AWAITING_GAME (PyBool false)
      else
        new_target ← randint_1_100;
        let state := set_attempts 0 (set_target new_target state) in
        update_game_state user_id score state;;
        emit (reply_text (FGuessNext attempts score) NoKeyboard)
    else
      match target with
      | None => raise TypeError     (* guess < None *)
      | Some target =>
          if decide (guess < target) then
            update_game_state user_id score (set_attempts attempts state);;
            emit (reply_text T_LARGER NoKeyboard)
          else
            update_game_state user_id score (set_attempts attempts state);;
            emit (reply_text T_SMALLER NoKeyboard)
      end.

Definition guess_turn (user_id : Z) (text : str) : M unit := λ w,
  match guess_body user_id text w with
  | (Raise ValueError, w') => emit (reply_text T_FORMAT_HINT NoKeyboard) w'
  | r => r
  end.

(** *** Quest, lines 399-426 *)
Definition quest_turn (user_id : Z) (text : str) : M unit :=
  '(game_name, score, state) ← get_game_state user_id;
  if decide (game_name ≠ Some QUEST) then
    emit (reply_text T_NOT_QUEST MAIN_KEYBOARD);;
    set_flag AWAITING_GAME (PyBool false)
  else
    let stage := default 0 (stage state) in
    if decide (str_lower text ∈ QUEST_ANSWERS ∧ stage < Z.of_nat (length QUEST_STAGES)) then
      let score := score + 10 in
      let state := set_stage (stage + 1) state in
      update_game_state user_id score state;;
      save_game_result user_id QUEST score;;
      if decide (stage + 1 >= Z.of_nat (length QUEST_STAGES)) then
        (if decide (score >= 100) then
           award_achievement user_id ACH_QUEST;;
           emit send_sticker;;
           emit (reply_text (FQuestAward score) MAIN_KEYBOARD);;
           update_stars user_id 10
         else
           emit (reply_text (FQuestDone score) MAIN_KEYBOARD));;
        set_flag AWAITING_GAME (PyBool false)
      else
        prompt ← index_or_raise QUEST_STAGES (stage + 1);
        emit (reply_text (Text prompt) NoKeyboard)
    else
      save_game_result user_id QUEST score;;
      emit (reply_text T_QUEST_FAILED MAIN_KEYBOARD);;
      set_flag AWAITING_GAME (PyBool false).

(** *** Logic-Riddle, lines 428-454 *)
Definition logic_turn (user_id : Z) (text : str) : M unit :=
  '(game_name, score, state) ← get_game_state user_id;
  if decide (game_name ≠ Some LOGIC) then
    emit (reply_text T_NOT_LOGIC MAIN_KEYBOARD);;
    set_flag AWAITING_GAME (PyBool false)
  else
    let riddle_idx := default 0 (riddle_idx state) in
    current ← index_or_raise LOGIC_RIDDLES riddle_idx;
    if decide (str_lower (Py.strip text) = answer current) then
      let score := score + 10 in
      let riddle_idx := (riddle_idx + 1) `mod` Z.of_nat (length LOGIC_RIDDLES) in
      let state := set_riddle_idx riddle_idx state in
      update_game_state user_id score state;;
      save_game_result user_id LOGIC score;;
      if decide (score >= 100) then
        award_achievement user_id ACH_LOGIC;;
        emit send_sticker;;
        emit (reply_text (FLogicAward score) MAIN_KEYBOARD);;
        update_stars user_id 10;;
        set_flag AWAITING_GAME (PyBool false)
      else
        next ← index_or_raise LOGIC_RIDDLES riddle_idx;
        emit (reply_text (FLogicNext score (riddle next)) NoKeyboard)
    else
      save_game_result user_id LOGIC score;;
      emit (reply_text (FLogicWrong (answer current)) MAIN_KEYBOARD);;
      set_flag AWAITING_GAME (PyBool false).

(** *** The weather prompt, lines 289-297 *)
Definition weather_turn (user_id : Z) (text : str) : M unit :=
  let city := Py.strip text in
  let forecast_info := get_forecast city in
  emit (reply_text (Text forecast_info) (SaveCityKeyboard (SAVE_CITY_ ++ city)));;
  log_weather_request user_id city;;
  set_flag AWAITING_CITY (PyBool false).

(** *** [handle_message], lines 279-454 *)
Definition handle_message (user_id : Z) (text : str) : M unit :=
  if decide (text = MENU) then
    emit logger_info;;
    emit (reply_text T_MENU MAIN_KEYBOARD);;
    clear_flags
  else
    awaiting_city ← get_flag AWAITING_CITY;
    awaiting_game ← get_flag AWAITING_GAME;
    if truthy awaiting_city then weather_turn user_id text
    else if decide (awaiting_game = Some (PyStr CITIES)) then cities_turn user_id text
    else if decide (awaiting_game = Some (PyStr GUESS)) then guess_turn user_id text
    else if decide (awaiting_game = Some (PyStr QUEST)) then quest_turn user_id text
    else if decide (awaiting_game = Some (PyStr LOGIC)) then logic_turn user_id text
    else mret ().

(** *** [handle_callback], lines 457-544

    [data] is [query.data]; [current_text] and [current_markup] are the
    text and keyboard of the message that carries the pressed button.
    The acknowledgement [query.answer()], whose failure is caught and
    logged on the spot, is a call to the chat platform and leaves no mark
    on what follows; it is left out.

    From line 530 on the file is damaged: the identifiers are
    transliterated and every line is doubled.  The last statement of the
    [game_quest] branch and the [game_logic] and [main] branches are read
    here through the damage, with the shape of their intact siblings
    (lines 506-529) and the game names that [handle_message] compares
    against. *)
Definition edit_unless_shown (current_text : option str) (text : str)
    (reply_markup : keyboard) (then_reply : option str) : M unit :=
  if decide (current_text ≠ Some text) then
    emit (edit_message_text (Text text) reply_markup);;
    match then_reply with
    | Some r => emit (reply_text (Text r) NoKeyboard)
    | None => mret ()
    end
  else mret ().

Definition handle_callback (user_id : Z) (data : str)
    (current_text : option str) (current_markup : keyboard) : M unit :=
  emit logger_info;;
  if decide (data = D_WEATHER) then
    edit_unless_shown current_text
      (u "Введите название города для прогноза на 5 дней:") NoKeyboard
      (Some (u "Введи город:"));;
    set_flag AWAITING_CITY (PyBool true)
  else if decide (data = D_ADMIN) then
    if decide (current_text ≠ Some (u "Вы направили запрос Администратору.")) then
      emit (edit_message_text (Text (u "Вы направили запрос Администратору.")) MAIN_KEYBOARD);;
      emit (send_message_admin (FAdminNotice user_id))
    else mret ()
  else if decide (data = D_FAVORITE_WEATHER) then
    city ← get_favorite_city user_id;
    match city with
    | Some ((_ :: _) as city) =>
        let forecast_info := get_forecast city in
        if decide (current_text ≠ Some forecast_info ∨ current_markup ≠ MAIN_KEYBOARD) then
          emit (edit_message_text (Text forecast_info) MAIN_KEYBOARD)
        else mret ()
    | _ =>
        edit_unless_shown current_text
          (u "У вас нет любимого города. Введите город для прогноза:") NoKeyboard
          (Some (u "Введи город:"));;
        set_flag AWAITING_CITY (PyBool true)
    end
  else if Py.startswith data SAVE_CITY_ then
    city ← index_or_raise (Py.split UNDERSCORE data) 2;
    save_favorite_city user_id city;;
    edit_unless_shown current_text
      (u "Город " ++ city ++ u " сохранён как любимый!") MAIN_KEYBOARD None
  else if decide (data = D_PLAY) then
    if decide (current_text ≠ Some (u "Выбери игру:") ∨ current_markup ≠ GAMES_KEYBOARD) then
      emit (edit_message_text (Text (u "Выбери игру:")) GAMES_KEYBOARD)
    else mret ()
  else if decide (data = D_GAME_CITIES) then
    start_game user_id CITIES;;
    edit_unless_shown current_text
      (u "Игра 'Города' началась! Назови первый город:") NoKeyboard
      (Some (u "Назови город:"));;
    set_flag AWAITING_GAME (PyStr CITIES)
  else if decide (data = D_GAME_GUESS) then
    start_game user_id GUESS;;
    target ← randint_1_100;
    update_game_state user_id 0 (set_attempts 0 (set_target target empty_state));;
    edit_unless_shown current_text
      (u "Я загадал число от 1 до 100. Угадай:") NoKeyboard
      (Some (u "Введи число:"));;
    set_flag AWAITING_GAME (PyStr GUESS)
  else if decide (data = D_GAME_QUEST) then
    start_game user_id QUEST;;
    update_game_state user_id 0 (set_stage 0 empty_state);;
    first ← index_or_raise QUEST_STAGES 0;
    edit_unless_shown current_text first NoKeyboard (Some (u "Введи ответ:"));;
    set_flag AWAITING_GAME (PyStr QUEST)
  else if decide (data = D_GAME_LOGIC) then
    start_game user_id LOGIC;;
    update_game_state user_id 0 (set_riddle_idx 0 empty_state);;
    first ← index_or_raise LOGIC_RIDDLES 0;
    edit_unless_shown current_text (riddle first) NoKeyboard (Some (u "Введи ответ:"));;
    set_flag AWAITING_GAME (PyStr LOGIC)
  else if decide (data = D_MAIN) then
    (if decide (current_text ≠ Some (u "Вы вернулись в главное меню:")
                ∨ current_markup ≠ MAIN_KEYBOARD) then
       emit (edit_message_text (Text (u "Вы вернулись в главное меню:")) MAIN_KEYBOARD)
     else mret ());;
    clear_flags
  else mret ().

End Handlers.

(** ** A concrete platform, for running the model

    [str.lower] on Basic Latin and the Cyrillic block, [int] on ASCII
    decimal numerals with an optional sign, and a six-city [cities.txt]. *)
Module Demo.

Definition lower_char (c : char) : char :=
  if ((65 <=? c) && (c <=? 90))%N then (c + 32)%N
  else if ((1040 <=? c) && (c <=? 1071))%N then (c + 32)%N
  else if ((1024 <=? c) && (c <=? 1039))%N then (c + 80)%N
  else c.

Definition lower (s : str) : str := map lower_char s.

Definition digit (c : char) : option Z :=
  if ((48 <=? c) && (c <=? 57))%N then Some (Z.of_N c - 48) else None.

Fixpoint digits (acc : Z) (s : str) : option Z :=
  match s with
  | [] => Some acc
  | c :: s' => match digit c with
               | Some d => digits (10 * acc + d) s'
               | None => None
               end
  end.

Definition parse_int (s : str) : option Z :=
  match Py.strip s with
  | [] => None
  | 45%N :: ((_ :: _) as ds) => Z.opp <$> digits 0 ds
  | 43%N :: ((_ :: _) as ds) => digits 0 ds
  | ds => digits 0 ds
  end.

Definition cities : list str :=
  [ u "москва"; u "архангельск"; u "курск"; u "казань"; u "нижний новгород"; u "донецк" ].

#[global] Instance platform : Platform := {|
  str_lower := lower;
  int_of_str := parse_int;
  VALID_CITIES := list_to_set cities;
  get_forecast := λ city, u "Прогноз на 5 дней в " ++ city ++ u ":"
|}.

(** A conversation with the given flags over the given tables, with a
    store that never fails and [random] drawing the given numbers. *)
Definition world_of (d : database) (flags : list (str * pyval)) (draws : list nat) : world :=
  World d (list_to_map flags) [] draws [].

Definition with_row (user_id : Z) (r : progress) : database :=
  with_game_progress {[ user_id := r ]} empty_db.

End Demo.

Definition row_of (user_id : Z) (w : world) : option progress :=
  game_progress (db w) !! user_id.

Definition flag_of (key : str) (w : world) : option pyval := user_data w !! key.

(** Messages of one conversation handled one after the other.  When a
    handler raises, the dispatcher hands the exception to the error
    handler, which only sends an apology, and goes on with the next
    update on the world the failed handler left. *)
Fixpoint run `{Platform} (user_id : Z) (texts : list str) (w : world) : world :=
  match texts with
  | [] => w
  | text :: rest => run user_id rest (handle_message user_id text w).2
  end.

Definition stars_of (user_id : Z) (w : world) : Z :=
  default 0 (user_stars (db w) !! user_id).

Definition GAMES : list str := [CITIES; GUESS; QUEST; LOGIC].

(** The engine behind each value of the [awaiting_game] flag. *)
Definition engine `{Platform} (game : str) : Z → str → M unit :=
  if decide (game = CITIES) then cities_turn
  else if decide (game = GUESS) then guess_turn
  else if decide (game = QUEST) then quest_turn
  else logic_turn.

Definition not_playing (game : str) : message :=
  if decide (game = CITIES) then T_NOT_CITIES
  else if decide (game = GUESS) then T_NOT_GUESS
  else if decide (game = QUEST) then T_NOT_QUEST
  else T_NOT_LOGIC.

Definition achievement_of (game : str) : str :=
  if decide (game = CITIES) then ACH_CITIES
  else if decide (game = GUESS) then ACH_GUESS
  else if decide (game = QUEST) then ACH_QUEST
  else ACH_LOGIC.

(** The city that [handle_callback] takes out of a payload
    [save_city_<city>]: what precedes the first underscore of [city]. *)
Definition first_field (city : str) : str := hd [] (Py.split UNDERSCORE city).

(** Worlds used to run the model. *)
Module DemoWorlds.
Import Demo.

Definition both_flags : world :=
  world_of (with_row 1 (Progress (Some CITIES) 0 empty_state))
           [(AWAITING_CITY, PyBool true); (AWAITING_GAME, PyStr CITIES)] [].

Definition idle : world := world_of empty_db [] [].

(** [awaiting_game] says Guess, the stored row still says Cities. *)
Definition stale_guess : world :=
  world_of (with_row 1 (Progress (Some CITIES) 40 empty_state))
           [(AWAITING_GAME, PyStr GUESS)] [].

(** A Logic game that has just begun: score 0, first riddle. *)
Definition logic_fresh : world :=
  world_of (with_row 1 (Progress (Some LOGIC) 0 (set_riddle_idx 0 empty_state)))
           [(AWAITING_GAME, PyStr LOGIC)] [].

(** Nine correct answers in a row, riddle after riddle. *)
Definition nine_answers : list str :=
  [ u "8"; u "время"; u "карта"; u "8"; u "время"; u "карта";
    u "8"; u "время"; u "карта" ].

(** A City-Chain game that has just begun. *)
Definition cities_fresh : world :=
  world_of (with_row 1 (Progress (Some CITIES) 0 empty_state))
           [(AWAITING_GAME, PyStr CITIES)] [].

(** A quest at its second prompt, after one accepted answer. *)
Definition quest_stage1 : world :=
  world_of (with_row 1 (Progress (Some QUEST) 10 (set_stage 1 empty_state)))
           [(AWAITING_GAME, PyStr QUEST)] [].

(** A Number-Guessing game with target 42 and no attempt yet. *)
Definition guess_42 : world :=
  world_of (with_row 1 (Progress (Some GUESS) 0
                          (set_attempts 0 (set_target 42 empty_state))))
           [(AWAITING_GAME, PyStr GUESS)] [].

(** A quest that has just begun. *)
Definition quest_stage0 : world :=
  world_of (with_row 1 (Progress (Some QUEST) 0 (set_stage 0 empty_state)))
           [(AWAITING_GAME, PyStr QUEST)] [].

End DemoWorlds.

(** ** Vocabulary of the properties *)

(** A game session opens with the flag set to the game and a fresh row
    (score 0; the quest at stage 0), and runs against a store that does
    not fail. *)
Definition session_start (game : str) (user_id : Z) (w : world) : Prop :=
  faults w = [] ∧
  flag_of AWAITING_GAME w = Some (PyStr game) ∧
  ∃ st, row_of user_id w = Some (Progress (Some game) 0 st) ∧
        (game = QUEST → stage st = Some 0).

(** What one turn of an engine can do to the observable state, from a
    row [(game, sc, st)]:
    - nothing that scores or ends the game;
    - score and go on;
    - score and end the game, with the badge and ten stars from 100 up;
    - end the game without scoring. *)
Definition turn_quiet (user_id : Z) (game : str) (sc : Z) (st : jstate)
    (w w' : world) : Prop :=
  game_results (db w') = game_results (db w) ∧
  user_stars (db w') = user_stars (db w) ∧
  user_achievements (db w') = user_achievements (db w) ∧
  user_data w' = user_data w ∧
  ∃ st', row_of user_id w' = Some (Progress (Some game) sc st') ∧ stage st' = stage st.

Definition turn_scored_open (user_id : Z) (game : str) (sc : Z) (st : jstate)
    (w w' : world) : Prop :=
  game_results (db w') = game_results (db w) ++ [(user_id, game, sc + 10)] ∧
  user_stars (db w') = user_stars (db w) ∧
  user_achievements (db w') = user_achievements (db w) ∧
  user_data w' = user_data w ∧
  (game = QUEST ∨ sc + 10 < 100) ∧
  ∃ st', row_of user_id w' = Some (Progress (Some game) (sc + 10) st') ∧
         (game = QUEST →
            stage st' = Some (default 0 (stage st) + 1) ∧ default 0 (stage st) + 1 < 3).

Definition turn_scored_over (user_id : Z) (game : str) (sc : Z) (st : jstate)
    (w w' : world) : Prop :=
  game_results (db w') = game_results (db w) ++ [(user_id, game, sc + 10)] ∧
  user_data w' = <[AWAITING_GAME := PyBool false]> (user_data w) ∧
  (∃ r', row_of user_id w' = Some r' ∧ (score r' = sc ∨ score r' = sc + 10)) ∧
  if decide (sc + 10 >= 100) then
    stars_of user_id w' = stars_of user_id w + 10 ∧
    user_achievements (db w')
    = insert_unique (user_id, achievement_of game) (user_achievements (db w))
  else
    user_stars (db w') = user_stars (db w) ∧
    user_achievements (db w') = user_achievements (db w).

Definition turn_failed_over (user_id : Z) (game : str) (sc : Z) (st : jstate)
    (w w' : world) : Prop :=
  game_results (db w') = game_results (db w) ++ [(user_id, game, sc)] ∧
  user_stars (db w') = user_stars (db w) ∧
  user_achievements (db w') = user_achievements (db w) ∧
  user_data w' = <[AWAITING_GAME := PyBool false]> (user_data w) ∧
  row_of user_id w' = row_of user_id w.

Definition turn_summary (user_id : Z) (game : str) (sc : Z) (st : jstate)
    (w w' : world) : Prop :=
  faults w' = [] ∧
  (turn_quiet user_id game sc st w w' ∨ turn_scored_open user_id game sc st w w' ∨
   turn_scored_over user_id game sc st w w' ∨ turn_failed_over user_id game sc st w w').



(** Every city of the list but the first starts with the playable
    letter of the city before it. *)
Fixpoint chain (l : list str) : Prop :=
  match l with
  | a :: (b :: _) as rest => Py.startswith b (playable_letter a) = true ∧ chain rest
  | _ => True
  end.

(** A well-formed City-Chain state: no city named twice, the cities
    named so far (the player's and the bot's, in turn) form a chain, and
    [last_city] is the last of them, or empty when none was named. *)
Definition cities_state_ok (st : jstate) : Prop :=
  let used := default [] (used_cities st) in
  let last_named := default [] (last_city st) in
  NoDup used ∧ chain used ∧
  ((last_named = [] ∧ used = []) ∨ (last_named ≠ [] ∧ last used = Some last_named)).

Definition progress_ok (user_id : Z) (d : database) : Prop :=
  ∀ r, game_progress d !! user_id = Some r → cities_state_ok (state r).

(** [keeps I m Q]: whatever fails, [m] takes tables that satisfy [I] to
    tables that satisfy [I], and a value it returns satisfies [Q]. *)
Definition keeps {A} (I : database → Prop) (m : M A) (Q : A → Prop) : Prop :=
  ∀ w, I (db w) → I (db (m w).2) ∧ ∀ a, (m w).1 = Return a → Q a.

(** [emits P m]: whatever fails, every event [m] adds to the trace
    satisfies [P], and [m] removes none. *)
Definition emits {A} (P : event → Prop) (m : M A) : Prop :=
  ∀ w, ∃ evs, trace (m w).2 = trace w ++ evs ∧ Forall P evs.

(** An event that is not an edit of the displayed message to the very
    text and keyboard it already has. *)
Definition changes_message (current_text : option str) (current_markup : keyboard)
    (ev : event) : Prop :=
  ∀ text kb, ev = edit_message_text (Text text) kb →
             current_text ≠ Some text ∨ current_markup ≠ kb.

(** The tables [d] hold for [other] exactly what [d0] holds: the same
    progress row and star balance, and the same rows, in the same order,
    in the three logs. *)
Definition same_rows_of (other : Z) (d0 d : database) : Prop :=
  game_progress d !! other = game_progress d0 !! other ∧
  user_stars d !! other = user_stars d0 !! other ∧
  filter (λ r, r.1 = other) (user_achievements d)
  = filter (λ r, r.1 = other) (user_achievements d0) ∧
  filter (λ r, r.1.1 = other) (game_results d)
  = filter (λ r, r.1.1 = other) (game_results d0) ∧
  filter (λ r, r.1 = other) (weather_requests d)
  = filter (λ r, r.1 = other) (weather_requests d0).

(** From [d0] to [d] nothing changed for anybody but [user_id]: the
    favourites are the same, every other user has the same rows, and
    [user_id] has a progress row in [d] exactly when there was one in
    [d0], under the same game name. *)
Definition others_untouched (user_id : Z) (d0 d : database) : Prop :=
  favorite_cities d = favorite_cities d0 ∧
  game_name <$> game_progress d !! user_id = game_name <$> game_progress d0 !! user_id ∧
  ∀ other, other ≠ user_id → same_rows_of other d0 d.

(** From [d0] to [d] the three logs only got longer at their end and the
    star balance of [user_id] did not go down. *)
Definition only_grows (user_id : Z) (d0 d : database) : Prop :=
  weather_requests d0 `prefix_of` weather_requests d ∧
  game_results d0 `prefix_of` game_results d ∧
  user_achievements d0 `prefix_of` user_achievements d ∧
  default 0 (user_stars d0 !! user_id) <= default 0 (user_stars d !! user_id).

(** From [d0] to [d] only the favourites and the progress row of
    [user_id] may have changed. *)
Definition only_own_choice (user_id : Z) (d0 d : database) : Prop :=
  weather_requests d = weather_requests d0 ∧
  user_achievements d = user_achievements d0 ∧
  user_stars d = user_stars d0 ∧
  game_results d = game_results d0 ∧
  ∀ other, other ≠ user_id →
    game_progress d !! other = game_progress d0 !! other ∧
    filter (λ r, r.1 = other) (favorite_cities d)
    = filter (λ r, r.1 = other) (favorite_cities d0).

(** A progress row of [user_id] in [d0] is still there in [d], with a
    score that is not lower. *)
Definition score_kept (user_id : Z) (d0 d : database) : Prop :=
  ∀ r, game_progress d0 !! user_id = Some r →
       ∃ r', game_progress d !! user_id = Some r' ∧ score r <= score r'.

(** A message that moves the quest forward: not "Меню", and one of the
    two accepted words once lower-cased. *)
Definition quest_step `{Platform} (text : str) : Prop :=
  text ≠ MENU ∧ str_lower text ∈ QUEST_ANSWERS.

(** Along a quest that began at stage 0, after the messages [done]: the
    stored stage [k] counts the leading messages, all of them steps
    forward, the score is ten times the stage, and while the quest is on
    every message so far was a step. *)
Definition quest_inv `{Platform} (user_id : Z) (done : list str) (w : world) : Prop :=
  faults w = [] ∧
  truthy (flag_of AWAITING_CITY w) = false ∧
  ∃ (k : nat) st,
    row_of user_id w = Some (Progress (Some QUEST) (10 * Z.of_nat k) st) ∧
    stage st = Some (Z.of_nat k) ∧
    (k <= 3)%nat ∧ (k <= length done)%nat ∧
    Forall quest_step (take k done) ∧
    ((flag_of AWAITING_GAME w = Some (PyStr QUEST) ∧ k = length done ∧ (k < 3)%nat)
     ∨ (∀ g, In g GAMES → flag_of AWAITING_GAME w ≠ Some (PyStr g))).

(** What a turn sent and logged: the events it added to the trace. *)
Definition sent (w w' : world) : list event := drop (length (trace w)) (trace w').

(** The inputs the quest takes as a step forward at stage [k]. *)
Definition quest_accepts `{Platform} (k : Z) (text : str) : Prop :=
  str_lower text ∈ QUEST_ANSWERS ∧ k < 3.

(** ** The forecast digest, lines 256-276

    [get_forecast] asks the weather service for the five-day forecast of
    a city and digests the answer into one line per day.  The answer is
    whatever [response.json()] returns, or nothing when the request or
    the parsing raises.  Every exception raised while digesting is caught
    by the one [except Exception], which logs it and returns a fixed
    text; [None] below stands for such an exception. *)

Module Forecast.

(** A parsed JSON value.  The program never computes with a number, it
    only prints it (through [py_format] below), so a number is kept as an
    integer code that identifies it. *)
#[warnings="-register-all"] Inductive json :=
| JNull
| JBool (b : bool)
| JNum (token : Z)
| JStr (s : str)
| JArr (l : list json)
| JObj (m : gmap str json).

Definition K_COD : str := Eval cbv in u "cod".
Definition K_LIST : str := Eval cbv in u "list".
Definition K_DT_TXT : str := Eval cbv in u "dt_txt".
Definition K_MAIN : str := Eval cbv in u "main".
Definition K_TEMP : str := Eval cbv in u "temp".
Definition K_WEATHER : str := Eval cbv in u "weather".
Definition K_DESCRIPTION : str := Eval cbv in u "description".
Definition OK_200 : str := Eval cbv in u "200".
Definition NOON : str := Eval cbv in u "12:00:00".
Definition SPACE : char := 32%N.
Definition NEWLINE : str := [10%N].
Definition T_NOT_FOUND : str := Eval cbv in u "Не удалось найти город для прогноза.".
Definition T_FAILED : str := Eval cbv in u "Произошла ошибка при получении прогноза.".

(** [j[key]] for a string key: [KeyError] on an object without the key,
    [TypeError] on everything else. *)
Definition json_getitem (j : json) (key : str) : option json :=
  match j with
  | JObj m => m !! key
  | _ => None
  end.

(** [j[0]]: the first element of an array, the first character of a
    string; [IndexError] when empty, [KeyError] on an object (its keys
    are strings), [TypeError] otherwise. *)
Definition json_first (j : json) : option json :=
  match j with
  | JArr l => head l
  | JStr (c :: _) => Some (JStr [c])
  | _ => None
  end.

(** [for entry in j]: the elements of an array, the keys of an object,
    the characters of a string; [TypeError] otherwise. *)
Definition json_iter (j : json) : option (list json) :=
  match j with
  | JArr l => Some l
  | JObj m => Some (JStr <$> (map_to_list m).*1)
  | JStr s => Some ((λ c, JStr [c]) <$> s)
  | _ => None
  end.

(** The receiver of [.split]: only a string has the method. *)
Definition json_str (j : json) : option str :=
  match j with
  | JStr s => Some s
  | _ => None
  end.

(** [needle in s] on strings *)
Fixpoint contains (needle s : str) {struct s} : bool :=
  Py.startswith s needle
  || match s with
     | [] => false
     | _ :: s' => contains needle s'
     end.

(** [sep.join(l)] *)
Fixpoint join (sep : str) (l : list str) : str :=
  match l with
  | [] => []
  | x :: rest =>
      match rest with
      | [] => x
      | _ => x ++ sep ++ join sep rest
      end
  end.

(** [dt_txt.split(" ")[0]] *)
Definition date_of (dt_txt : str) : str := hd [] (Py.split SPACE dt_txt).

Section Body.

(** [format(x, "")], what an f-string prints for a value. *)
Variable py_format : json → str.

(** One round of the loop over [data["list"]]; [daily_data] is the
    dictionary built so far, in insertion order. *)
Definition add_entry (daily_data : list (str * str)) (entry : json)
    : option (list (str * str)) :=
  dt ← json_getitem entry K_DT_TXT;
  dt_txt ← json_str dt;
  let date := date_of dt_txt in
  if bool_decide (date ∉ daily_data.*1) && contains NOON dt_txt then
    main ← json_getitem entry K_MAIN;
    temp ← json_getitem main K_TEMP;
    weather ← json_getitem entry K_WEATHER;
    first ← json_first weather;
    desc ← json_getitem first K_DESCRIPTION;
    Some (daily_data ++
          [(date, date ++ u ": " ++ py_format temp ++ u "°C, " ++ py_format desc)])
  else Some daily_data.

Fixpoint digest (daily_data : list (str * str)) (entries : list json)
    : option (list (str * str)) :=
  match entries with
  | [] => Some daily_data
  | entry :: rest => daily_data ← add_entry daily_data entry; digest daily_data rest
  end.

Definition header (city : str) : str :=
  u "Прогноз на 5 дней в " ++ city ++ u ":" ++ NEWLINE.

(** The result and whether the [except] block logged an error. *)
Definition get_forecast (city : str) (response : option json) : str * bool :=
  let body : option str :=
    data ← response;
    cod ← json_getitem data K_COD;
    if match cod with JStr s => bool_decide (s = OK_200) | _ => false end then
      entries ← json_getitem data K_LIST ≫= json_iter;
      daily_data ← digest [] entries;
      Some (header city ++ join NEWLINE daily_data.*2)
    else Some T_NOT_FOUND in
  match body with
  | Some text => (text, false)
  | None => (T_FAILED, true)
  end.

(** The day of an entry stamped at noon. *)
Definition noon_date (entry : json) : option str :=
  dt_txt ← json_getitem entry K_DT_TXT ≫= json_str;
  if contains NOON dt_txt then Some (date_of dt_txt) else None.

(** The line printed for an entry. *)
Definition entry_line (entry : json) : option str :=
  dt_txt ← json_getitem entry K_DT_TXT ≫= json_str;
  main ← json_getitem entry K_MAIN;
  temp ← json_getitem main K_TEMP;
  weather ← json_getitem entry K_WEATHER;
  first ← json_first weather;
  desc ← json_getitem first K_DESCRIPTION;
  Some (date_of dt_txt ++ u ": " ++ py_format temp ++ u "°C, " ++ py_format desc).

End Body.

(** A formatter for running the model: strings as they are, numbers by
    their token read as a code point, nothing for the rest. *)
Definition demo_format (j : json) : str :=
  match j with
  | JStr s => s
  | JNum t => [Z.to_N t]
  | _ => []
  end.

(** An answer with three entries: noon of the 1st, evening of the 1st,
    noon of the 2nd. *)
Definition demo_entry (dt_txt description : string) (temp : Z) : json :=
  JObj {[ K_DT_TXT := JStr (u dt_txt);
          K_MAIN := JObj {[ K_TEMP := JNum temp ]};
          K_WEATHER := JArr [JObj {[ K_DESCRIPTION := JStr (u description) ]}] ]}.

Definition demo_answer : json :=
  JObj {[ K_COD := JStr OK_200;
          K_LIST := JArr [demo_entry "2024-05-01 12:00:00" "ясно" 53;
                          demo_entry "2024-05-01 18:00:00" "дождь" 54;
                          demo_entry "2024-05-02 12:00:00" "снег" 55] ]}.

End Forecast.

(** * Properties *)

Example u_menu : u "Меню" = [1052; 1077; 1085; 1102]%N.
Proof. reflexivity. Qed.

Example strip_example : Py.strip (u "  да ") = u "да".
Proof. reflexivity. Qed.

Example split_example :
  Py.split 95%N (u "save_city_new_york") = [u "save"; u "city"; u "new"; u "york"].
Proof. reflexivity. Qed.

(** ** Running the monad *)

Lemma accessor_ok {R} name (dflt : R) stmt d ud rg tr :
  accessor name dflt stmt (World d ud [] rg tr)
  = (Return (stmt d).1, World (stmt d).2 ud [] rg tr).
Proof. unfold accessor. simpl. destruct (stmt d). reflexivity. Qed.

Lemma accessor_no_fault {R} name (dflt : R) stmt d ud fs rg tr :
  accessor name dflt stmt (World d ud (NoFault :: fs) rg tr)
  = (Return (stmt d).1, World (stmt d).2 ud fs rg tr).
Proof. unfold accessor. simpl. destruct (stmt d). reflexivity. Qed.

Lemma accessor_statement_error {R} name (dflt : R) stmt d ud fs rg tr :
  accessor name dflt stmt (World d ud (StatementError :: fs) rg tr)
  = (Return dflt, World d ud fs rg (tr ++ [logger_error name])).
Proof. reflexivity. Qed.

Lemma accessor_unbound {R} name (dflt : R) stmt d ud f fs rg tr :
  f = ConnectError ∨ f = CursorError →
  accessor name dflt stmt (World d ud (f :: fs) rg tr)
  = (Raise UnboundLocalError, World d ud fs rg (tr ++ [logger_error name])).
Proof. intros [-> | ->]; reflexivity. Qed.

(** What any accessor call can do to the world, whatever fails. *)
Lemma accessor_cases {R} name (dflt : R) stmt w :
  let r := accessor name dflt stmt w in
  user_data r.2 = user_data w ∧ rng r.2 = rng w ∧ faults r.2 = tl (faults w) ∧
  ((r.1 = Return (stmt (db w)).1 ∧ db r.2 = (stmt (db w)).2 ∧ trace r.2 = trace w)
   ∨ (db r.2 = db w ∧ trace r.2 = trace w ++ [logger_error name] ∧
      (r.1 = Return dflt ∨ r.1 = Raise UnboundLocalError))).
Proof.
  destruct w as [d ud fs rg tr]. unfold accessor. cbn [db user_data faults rng trace].
  destruct (hd NoFault fs); cbn; destruct (stmt d); cbn; auto 10.
Qed.

Ltac munfold :=
  unfold get_game_state, update_game_state, save_game_result, award_achievement,
    update_stars, log_weather_request, save_favorite_city, get_favorite_city,
    start_game, get_stars, index_or_raise, randint_1_100.

Ltac mstep :=
  first [ rewrite accessor_ok
        | rewrite accessor_no_fault
        | rewrite accessor_statement_error
        | rewrite accessor_unbound by auto
        | progress unfold mbind, M_bind, mret, M_ret
        | progress cbn beta iota delta
            [emit set_flag clear_flags get_flag raise next_random
             fst snd db user_data faults rng trace game_name score state] ].

Ltac mred := repeat mstep.

Ltac mproj :=
  unfold row_of, flag_of, stars_of in *;
  cbn [db user_data faults rng trace
       weather_requests favorite_cities game_progress user_achievements
       user_stars game_results
       with_weather_requests with_favorite_cities with_game_progress
       with_user_achievements with_user_stars with_game_results fst snd] in *.
Ltac mrun := munfold; mred.

Lemma engine_cities `{Platform} : engine CITIES = cities_turn.
Proof. reflexivity. Qed.
Lemma engine_guess `{Platform} : engine GUESS = guess_turn.
Proof. reflexivity. Qed.
Lemma engine_quest `{Platform} : engine QUEST = quest_turn.
Proof. reflexivity. Qed.
Lemma engine_logic `{Platform} : engine LOGIC = logic_turn.
Proof. reflexivity. Qed.

Lemma not_playing_cities : not_playing CITIES = T_NOT_CITIES.
Proof. reflexivity. Qed.
Lemma not_playing_guess : not_playing GUESS = T_NOT_GUESS.
Proof. reflexivity. Qed.
Lemma not_playing_quest : not_playing QUEST = T_NOT_QUEST.
Proof. reflexivity. Qed.
Lemma not_playing_logic : not_playing LOGIC = T_NOT_LOGIC.
Proof. reflexivity. Qed.

Lemma games_distinct :
  CITIES ≠ GUESS ∧ CITIES ≠ QUEST ∧ CITIES ≠ LOGIC ∧
  GUESS ≠ QUEST ∧ GUESS ≠ LOGIC ∧ QUEST ≠ LOGIC.
Proof. repeat split; discriminate. Qed.

Lemma flags_distinct : AWAITING_CITY ≠ AWAITING_GAME.
Proof. discriminate. Qed.

Section RouterFacts.

Context `{Platform}.

(** With no city prompt pending, a message that is not "Меню" goes to
    the engine named by [awaiting_game]. *)
Lemma handle_message_engine user_id text w game :
  text ≠ MENU →
  truthy (flag_of AWAITING_CITY w) = false →
  flag_of AWAITING_GAME w = Some (PyStr game) →
  In game GAMES →
  handle_message user_id text w = engine game user_id text w.
Proof.
  intros Hm Hc Hg Hin. unfold handle_message, flag_of in *.
  destruct (decide (text = MENU)) as [|_]; [done|].
  mrun. rewrite Hc, Hg. cbn iota.
  destruct games_distinct as (? & ? & ? & ? & ? & ?).
  unfold engine, GAMES in *. cbn [In] in Hin.
  destruct Hin as [<- | [<- | [<- | [<- | []]]]];
    repeat (case_decide; simplify_eq; try reflexivity).
Qed.

Lemma handle_message_menu user_id w :
  handle_message user_id MENU w
  = (Return (), World (db w) ∅ (faults w) (rng w)
                      (trace w ++ [logger_info; reply_text T_MENU MAIN_KEYBOARD])).
Proof.
  unfold handle_message. destruct (decide (MENU = MENU)) as [_|]; [|done].
  mrun. unfold clear_flags. cbn [db user_data faults rng trace].
  by rewrite <- app_assoc.
Qed.

Lemma handle_message_weather user_id text w :
  text ≠ MENU →
  truthy (flag_of AWAITING_CITY w) = true →
  handle_message user_id text w = weather_turn user_id text w.
Proof.
  intros Hm Hc. unfold handle_message, flag_of in *.
  destruct (decide (text = MENU)) as [|_]; [done|].
  mrun. by rewrite Hc.
Qed.

Lemma handle_message_ignored user_id text w :
  text ≠ MENU →
  truthy (flag_of AWAITING_CITY w) = false →
  (∀ game, In game GAMES → flag_of AWAITING_GAME w ≠ Some (PyStr game)) →
  handle_message user_id text w = (Return (), w).
Proof.
  intros Hm Hc Hg. unfold handle_message, flag_of in *.
  destruct (decide (text = MENU)) as [|_]; [done|].
  mrun. rewrite Hc. cbn iota.
  repeat (case_decide as Hd;
          [exfalso; eapply Hg; [|exact Hd]; unfold GAMES; cbn [In]; auto 10
          |clear Hd]).
  reflexivity.
Qed.

(** The weather turn never touches the game tables or the game flag. *)
Lemma weather_turn_games user_id text w :
  let w' := (weather_turn user_id text w).2 in
  game_progress (db w') = game_progress (db w) ∧
  game_results (db w') = game_results (db w) ∧
  flag_of AWAITING_GAME w' = flag_of AWAITING_GAME w.
Proof.
  destruct w as [d ud fs rg tr]. unfold weather_turn, flag_of.
  destruct fs as [|[] fs]; mrun; repeat split; try reflexivity;
    by rewrite lookup_insert_ne by apply flags_distinct.
Qed.

End RouterFacts.

(** ** Store accessors under failure *)

(** A failing statement is caught: the accessor logs and returns its
    default, and nothing is committed. *)
Lemma accessors_default_on_statement_error user_id new_score new_state d ud fs rg tr :
  let w := World d ud (StatementError :: fs) rg tr in
  get_game_state user_id w
    = (Return (None, 0, empty_state),
       World d ud fs rg (tr ++ [logger_error Aget_game_state])) ∧
  get_favorite_city user_id w
    = (Return None, World d ud fs rg (tr ++ [logger_error Aget_favorite_city])) ∧
  update_game_state user_id new_score new_state w
    = (Return (), World d ud fs rg (tr ++ [logger_error Aupdate_game_state])).
Proof. repeat split. Qed.

(** C8 (the code departs from the claim).  When [psycopg2.connect] itself
    raises, each accessor logs the error, and then its [finally] block
    reads the unbound local [cursor]: the call ends in
    [UnboundLocalError] instead of returning its default.  Shown for
    [get_game_state], [get_favorite_city] and [update_game_state]; the
    other seven accessors are built by the same [accessor] shape. *)
Theorem accessors_raise_when_connect_fails user_id new_score new_state d ud fs rg tr :
  let w := World d ud (ConnectError :: fs) rg tr in
  get_game_state user_id w
    = (Raise UnboundLocalError,
       World d ud fs rg (tr ++ [logger_error Aget_game_state])) ∧
  get_favorite_city user_id w
    = (Raise UnboundLocalError,
       World d ud fs rg (tr ++ [logger_error Aget_favorite_city])) ∧
  update_game_state user_id new_score new_state w
    = (Raise UnboundLocalError,
       World d ud fs rg (tr ++ [logger_error Aupdate_game_state])).
Proof. repeat split. Qed.

(** ** The session router *)

(** C2.  "Меню" is handled first and clears every flag, whatever the
    flags are; otherwise a truthy [awaiting_city] sends the text to the
    weather prompt whatever [awaiting_game] holds, and the game tables and
    the game flag are left alone; with no city prompt and no game named by
    [awaiting_game] the message changes nothing and sends nothing. *)
Theorem router_priority `{Platform} user_id text w :
  (text = MENU →
     handle_message user_id text w
     = (Return (), World (db w) ∅ (faults w) (rng w)
                         (trace w ++ [logger_info; reply_text T_MENU MAIN_KEYBOARD]))) ∧
  (text ≠ MENU → truthy (flag_of AWAITING_CITY w) = true →
     handle_message user_id text w = weather_turn user_id text w ∧
     let w' := (handle_message user_id text w).2 in
     game_progress (db w') = game_progress (db w) ∧
     game_results (db w') = game_results (db w) ∧
     flag_of AWAITING_GAME w' = flag_of AWAITING_GAME w) ∧
  (text ≠ MENU → truthy (flag_of AWAITING_CITY w) = false →
     (∀ game, In game GAMES → flag_of AWAITING_GAME w ≠ Some (PyStr game)) →
     handle_message user_id text w = (Return (), w)).
Proof.
  split; [|split].
  - intros ->. apply handle_message_menu.
  - intros Hm Hc. split; [by apply handle_message_weather|].
    rewrite handle_message_weather by done. apply weather_turn_games.
  - apply handle_message_ignored.
Qed.

Lemma router_priority_witness :
  handle_message 1 MENU DemoWorlds.both_flags
  = (Return (), World (db DemoWorlds.both_flags) ∅ [] []
                      [logger_info; reply_text T_MENU MAIN_KEYBOARD]) ∧
  handle_message 1 (u "курск") DemoWorlds.both_flags
  = weather_turn 1 (u "курск") DemoWorlds.both_flags ∧
  handle_message 1 (u "курск") DemoWorlds.idle = (Return (), DemoWorlds.idle).
Proof.
  split; [|split].
  - apply (router_priority 1 MENU DemoWorlds.both_flags). reflexivity.
  - apply (router_priority 1 (u "курск") DemoWorlds.both_flags);
      [discriminate | vm_compute; reflexivity].
  - apply (router_priority 1 (u "курск") DemoWorlds.idle);
      [discriminate | vm_compute; reflexivity |].
    intros game _. vm_compute. discriminate.
Defined.

(** ** The active-game guard *)

Section Guard.

Context `{Platform}.

Lemma get_game_state_frame user_id w r w1 :
  get_game_state user_id w = (r, w1) →
  db w1 = db w ∧ user_data w1 = user_data w ∧ rng w1 = rng w.
Proof.
  intros Hg. unfold get_game_state in Hg.
  pose proof (accessor_cases Aget_game_state (None, 0, empty_state)
    (λ d, (match game_progress d !! user_id with
           | Some r => (game_name r, score r, state r)
           | None => (None, 0, empty_state)
           end, d)) w) as Hc.
  rewrite Hg in Hc. cbn in Hc. destruct Hc as (? & ? & _ & [(_ & ? & _) | (? & _)]); auto.
Qed.

(** C9.  In each of the four engines, when the row read from
    [game_progress] (or the default that [get_game_state] returns on a
    failing statement or a missing row) names another game, the handler
    only answers that the game is not running and clears [awaiting_game];
    nothing is written to the store.  Number-Guessing reads the row only
    once [int] has accepted the text: on other texts it answers with the
    format hint, and writes nothing either. *)
Theorem stale_row_never_scores user_id text w game gn sc st w1 :
  In game GAMES →
  text ≠ MENU →
  truthy (flag_of AWAITING_CITY w) = false →
  flag_of AWAITING_GAME w = Some (PyStr game) →
  get_game_state user_id w = (Return (gn, sc, st), w1) →
  gn ≠ Some game →
  db (handle_message user_id text w).2 = db w ∧
  handle_message user_id text w
  = if decide (game = GUESS ∧ int_of_str (Py.strip text) = None)
    then (Return (), World (db w) (user_data w) (faults w) (rng w)
                           (trace w ++ [reply_text T_FORMAT_HINT NoKeyboard]))
    else (Return (), World (db w) (<[AWAITING_GAME := PyBool false]> (user_data w))
                           (faults w1) (rng w)
                           (trace w1 ++ [reply_text (not_playing game) MAIN_KEYBOARD])).
Proof.
  intros Hin Hm Hc Hf Hget Hne.
  destruct (get_game_state_frame _ _ _ _ Hget) as (Hd & Hu & Hr).
  rewrite (handle_message_engine user_id text w game) by done.
  assert (Hgoal : engine game user_id text w
    = if decide (game = GUESS ∧ int_of_str (Py.strip text) = None)
      then (Return (), World (db w) (user_data w) (faults w) (rng w)
                             (trace w ++ [reply_text T_FORMAT_HINT NoKeyboard]))
      else (Return (), World (db w) (<[AWAITING_GAME := PyBool false]> (user_data w))
                             (faults w1) (rng w)
                             (trace w1 ++ [reply_text (not_playing game) MAIN_KEYBOARD]))).
  { unfold GAMES in Hin. cbn [In] in Hin.
    destruct Hin as [<- | [<- | [<- | [<- | []]]]].
    - rewrite engine_cities, not_playing_cities.
      case_decide as Hg; [by destruct Hg|].
      unfold cities_turn, mbind, M_bind. rewrite Hget. cbn iota.
      case_decide; [|done]. mrun. by rewrite Hd, Hu, Hr.
    - rewrite engine_guess, not_playing_guess.
      unfold guess_turn, guess_body, mbind, M_bind.
      destruct (int_of_str (Py.strip text)) eqn:Hi.
      + case_decide as Hg; [by destruct Hg|].
        mred. rewrite Hget. cbn iota.
        case_decide; [|done]. mrun. by rewrite Hd, Hu, Hr.
      + case_decide as Hg; [|tauto]. mrun. reflexivity.
    - rewrite engine_quest, not_playing_quest.
      case_decide as Hg; [by destruct Hg|].
      unfold quest_turn, mbind, M_bind. rewrite Hget. cbn iota.
      case_decide; [|done]. mrun. by rewrite Hd, Hu, Hr.
    - rewrite engine_logic, not_playing_logic.
      case_decide as Hg; [by destruct Hg|].
      unfold logic_turn, mbind, M_bind. rewrite Hget. cbn iota.
      case_decide; [|done]. mrun. by rewrite Hd, Hu, Hr. }
  rewrite Hgoal. split; [|reflexivity]. by case_decide.
Qed.

End Guard.

Lemma stale_row_never_scores_witness :
  handle_message 1 (u "50") DemoWorlds.stale_guess
  = (Return (),
     World (db DemoWorlds.stale_guess)
           (<[AWAITING_GAME := PyBool false]> (user_data DemoWorlds.stale_guess))
           [] [] [reply_text T_NOT_GUESS MAIN_KEYBOARD]).
Proof.
  refine (proj2 (stale_row_never_scores (H := Demo.platform) 1 (u "50")
            DemoWorlds.stale_guess GUESS (Some CITIES) 40 empty_state
            DemoWorlds.stale_guess _ _ _ _ _ _)).
  - cbn. auto.
  - discriminate.
  - vm_compute; reflexivity.
  - vm_compute; reflexivity.
  - vm_compute; reflexivity.
  - discriminate.
Defined.

(** ** Saving a favourite city *)

Lemma split_nonempty sep s : Py.split sep s ≠ [].
Proof.
  destruct s as [|c s]; cbn; [done|].
  destruct (Py.split sep s); [done|]. by destruct (c =? sep)%N.
Qed.

Lemma split_cons sep c s :
  Py.split sep (c :: s)
  = if (c =? sep)%N then [] :: Py.split sep s
    else (c :: hd [] (Py.split sep s)) :: tl (Py.split sep s).
Proof.
  cbn. pose proof (split_nonempty sep s).
  destruct (Py.split sep s); [done|]. reflexivity.
Qed.

(** The first field holds no separator, and when the text has one the
    text is that field, the separator and a rest. *)
Lemma split_hd_no_sep sep s : ¬ In sep (hd [] (Py.split sep s)).
Proof.
  induction s as [|c s IH]; [cbn; tauto|].
  rewrite split_cons. destruct (c =? sep)%N eqn:E; cbn; [tauto|].
  apply N.eqb_neq in E. intros [? | ?]; [congruence | tauto].
Qed.

Lemma split_hd_prefix sep s :
  In sep s → ∃ rest, s = hd [] (Py.split sep s) ++ sep :: rest.
Proof.
  induction s as [|c s IH]; [intros []|].
  intros Hin. rewrite split_cons. destruct (c =? sep)%N eqn:E.
  - apply N.eqb_eq in E. subst c. exists s. reflexivity.
  - apply N.eqb_neq in E. destruct Hin as [? | Hin]; [congruence|].
    destruct (IH Hin) as [rest Hr]. exists rest. cbn. by rewrite <- Hr.
Qed.

Lemma split_save_city city :
  py_index (Py.split UNDERSCORE (SAVE_CITY_ ++ city)) 2 = Some (first_field city).
Proof.
  unfold SAVE_CITY_, first_field. cbn [app].
  repeat (rewrite (split_cons UNDERSCORE _ (_ :: _));
          cbn [N.eqb Pos.eqb hd tl UNDERSCORE]).
  rewrite split_cons. cbn [N.eqb Pos.eqb hd tl UNDERSCORE].
  pose proof (split_nonempty UNDERSCORE city).
  destruct (Py.split UNDERSCORE city); [done|]. reflexivity.
Qed.

Lemma save_city_data_routes city :
  SAVE_CITY_ ++ city ≠ D_WEATHER ∧ SAVE_CITY_ ++ city ≠ D_ADMIN ∧
  SAVE_CITY_ ++ city ≠ D_FAVORITE_WEATHER ∧
  Py.startswith (SAVE_CITY_ ++ city) SAVE_CITY_ = true.
Proof. repeat split; try (intros ?; discriminate); reflexivity. Qed.

Lemma handle_callback_save_city `{Platform} user_id city current_text current_markup w :
  handle_callback user_id (SAVE_CITY_ ++ city) current_text current_markup w
  = (emit logger_info;;
     save_favorite_city user_id (first_field city);;
     edit_unless_shown current_text
       (u "Город " ++ first_field city ++ u " сохранён как любимый!")
       MAIN_KEYBOARD None) w.
Proof.
  unfold handle_callback.
  destruct (save_city_data_routes city) as (? & ? & ? & Hs).
  unfold mbind, M_bind. cbn [emit].
  do 3 (case_decide; [done|]). rewrite Hs.
  unfold index_or_raise. rewrite split_save_city. reflexivity.
Qed.

(** C10.  The button under a forecast for [city] (the trimmed text the
    user typed) carries the payload [save_city_<city>].  Pressing it
    stores, for that user, the third underscore-separated field of the
    payload, which is [city] up to its first underscore: when the
    insert goes through, [favorite_cities] is the table it was with that
    row added (unless it is there already), and when it does not the
    table is as it was.  So a typed city with an underscore is stored
    truncated: the stored field is followed in [city] by an underscore
    and a rest, and [city] itself is not among the user's favourites
    unless it was there before the press. *)
Theorem save_city_truncates_at_underscore `{Platform} user_id text current_text
    current_markup w w0 :
  let city := Py.strip text in
  let w' := (handle_callback user_id (SAVE_CITY_ ++ city) current_text current_markup w).2 in
  (∃ rest, trace (weather_turn user_id text w0).2
           = trace w0 ++ reply_text (Text (get_forecast city))
                                    (SaveCityKeyboard (SAVE_CITY_ ++ city)) :: rest) ∧
  py_index (Py.split UNDERSCORE (SAVE_CITY_ ++ city)) 2 = Some (first_field city) ∧
  favorite_cities (db w')
  = (if decide (hd NoFault (faults w) = NoFault)
     then insert_unique (user_id, first_field city) (favorite_cities (db w))
     else favorite_cities (db w)) ∧
  (hd NoFault (faults w) = NoFault → (user_id, first_field city) ∈ favorite_cities (db w')) ∧
  (In UNDERSCORE city →
     first_field city ≠ city ∧
     (∃ rest, city = first_field city ++ UNDERSCORE :: rest) ∧
     ((user_id, city) ∈ favorite_cities (db w') → (user_id, city) ∈ favorite_cities (db w))).
Proof.
  intros city w'.
  assert (Hfav : favorite_cities (db w')
                 = (if decide (hd NoFault (faults w) = NoFault)
                    then insert_unique (user_id, first_field city) (favorite_cities (db w))
                    else favorite_cities (db w))).
  { subst w'. rewrite handle_callback_save_city. unfold edit_unless_shown.
    destruct w as [d ud fs rg tr]. cbn [faults db].
    destruct fs as [|[] fs]; cbn [hd]; mrun;
      (destruct (decide (_ = NoFault)) as [Hd|Hd]; [try discriminate Hd|try done]);
      try (match goal with
           | |- context [decide ?P] => destruct (decide P)
           end; mred);
      reflexivity. }
  assert (Hcut : In UNDERSCORE city → first_field city ≠ city).
  { intros Hin Heq. apply (split_hd_no_sep UNDERSCORE city).
    unfold first_field in Heq. by rewrite Heq. }
  split_and!.
  - destruct w0 as [d ud fs rg tr]. unfold weather_turn. fold city.
    destruct fs as [|[] fs]; mrun; eexists; rewrite <- ?app_assoc; reflexivity.
  - apply split_save_city.
  - exact Hfav.
  - intros Hok. rewrite Hfav. clear Hfav. rewrite decide_True by done.
    unfold insert_unique. case_decide; [done|].
    apply elem_of_app. right. by apply list_elem_of_singleton.
  - intros Hin. split_and!.
    + by apply Hcut.
    + by apply split_hd_prefix.
    + rewrite Hfav. clear Hfav. case_decide; [|done].
      unfold insert_unique. case_decide; [done|].
      intros Hrow. apply elem_of_app in Hrow as [Hrow|Hrow]; [done|].
      apply list_elem_of_singleton in Hrow. injection Hrow as Heq.
      destruct (Hcut Hin). done.
Qed.

Lemma save_city_truncates_at_underscore_witness :
  let w' := (handle_callback 1 (SAVE_CITY_ ++ u "new_york") None NoKeyboard
               DemoWorlds.idle).2 in
  In UNDERSCORE (u "new_york") ∧
  first_field (u "new_york") = u "new" ∧
  first_field (u "new_york") ≠ u "new_york" ∧
  favorite_cities (db w') = [(1, u "new")].
Proof.
  intros w'.
  assert (Hin : In UNDERSCORE (Py.strip (u "new_york"))) by (vm_compute; auto).
  destruct (save_city_truncates_at_underscore 1 (u "new_york") None NoKeyboard
              DemoWorlds.idle DemoWorlds.idle) as (_ & _ & Hfav & _ & Hcut).
  split; [exact Hin|]. split; [reflexivity|].
  split; [exact (proj1 (Hcut Hin))|].
  etransitivity; [exact Hfav|]. vm_compute. reflexivity.
Defined.

(** ** One turn of each engine on a store that does not fail *)

Ltac dec_goal :=
  match goal with
  | |- context [decide ?P] => destruct (decide P)
  end.

Ltac mlookups Hrow :=
  mproj;
  rewrite ?lookup_alter_eq, ?Hrow, ?lookup_insert_eq;
  cbn [fmap option_fmap option_map default from_option id game_name score state
       stage set_stage set_attempts set_target set_cities set_riddle_idx].

Ltac msolve Hrow :=
  mlookups Hrow; repeat split; try reflexivity; eauto; try lia;
  try (destruct (user_stars _ !! _); cbn [default from_option id]; lia);
  try (eexists; split; [reflexivity|]; try reflexivity;
       try (intros Hq; first [discriminate Hq | split; [reflexivity | lia]])).

Ltac mleaf Hrow :=
  split; [reflexivity|];
  first
    [ left; unfold turn_quiet; solve [msolve Hrow]
    | right; left; unfold turn_scored_open; solve [msolve Hrow]
    | right; right; left; unfold turn_scored_over;
      dec_goal; try lia; solve [msolve Hrow]
    | right; right; right; unfold turn_failed_over; solve [msolve Hrow] ].

Section TurnSummaries.

Context `{Platform}.

Lemma quest_turn_summary user_id text w sc st :
  faults w = [] →
  row_of user_id w = Some (Progress (Some QUEST) sc st) →
  turn_summary user_id QUEST sc st w (quest_turn user_id text w).2.
Proof.
  intros Hf Hrow. destruct w as [d ud fs rg tr]. cbn [faults] in Hf. subst fs.
  unfold quest_turn. mproj. mrun. rewrite Hrow. mred.
  dec_goal; [done|]. change (Z.of_nat (length QUEST_STAGES)) with 3.
  dec_goal; mred; [|mleaf Hrow].
  dec_goal; mred.
  - dec_goal; mred; mleaf Hrow.
  - destruct (py_index QUEST_STAGES _); mred; mleaf Hrow.
Qed.

Lemma logic_turn_summary user_id text w sc st :
  faults w = [] →
  row_of user_id w = Some (Progress (Some LOGIC) sc st) →
  turn_summary user_id LOGIC sc st w (logic_turn user_id text w).2.
Proof.
  intros Hf Hrow. destruct w as [d ud fs rg tr]. cbn [faults] in Hf. subst fs.
  unfold logic_turn. mproj. mrun. rewrite Hrow. mred.
  dec_goal; [done|].
  destruct (py_index LOGIC_RIDDLES (default 0 (riddle_idx st))); mred; [|mleaf Hrow].
  dec_goal; mred; [|mleaf Hrow].
  dec_goal; mred; [mleaf Hrow|].
  destruct (py_index LOGIC_RIDDLES _); mred; mleaf Hrow.
Qed.

Lemma guess_turn_summary user_id text w sc st :
  faults w = [] →
  row_of user_id w = Some (Progress (Some GUESS) sc st) →
  turn_summary user_id GUESS sc st w (guess_turn user_id text w).2.
Proof.
  intros Hf Hrow. destruct w as [d ud fs rg tr]. cbn [faults] in Hf. subst fs.
  unfold guess_turn, guess_body. mproj.
  destruct (int_of_str (Py.strip text)) as [g|]; mrun; [|mleaf Hrow].
  rewrite Hrow. mred. dec_goal; [done|].
  dec_goal; mred.
  - dec_goal; mred; [mleaf Hrow|].
    destruct rg; mred; mleaf Hrow.
  - destruct (target st); mred; [|mleaf Hrow].
    dec_goal; mred; mleaf Hrow.
Qed.

Lemma cities_turn_summary user_id text w sc st :
  faults w = [] →
  row_of user_id w = Some (Progress (Some CITIES) sc st) →
  turn_summary user_id CITIES sc st w (cities_turn user_id text w).2.
Proof.
  intros Hf Hrow. destruct w as [d ud fs rg tr]. cbn [faults] in Hf. subst fs.
  unfold cities_turn. mproj. mrun. rewrite Hrow. mred.
  dec_goal; [done|].
  dec_goal; mred; [mleaf Hrow|].
  dec_goal; mred; [mleaf Hrow|].
  set (wrong := match default [] (last_city st) with [] => _ | _ => _ end).
  assert (Hw : ∃ o, wrong (World d ud [] rg tr) = (o, World d ud [] rg tr)).
  { subst wrong. destruct (default [] (last_city st)); [by eexists|].
    mred. destruct (py_index _ 0); mred; by eexists. }
  destruct Hw as [o Hw]. rewrite Hw.
  destruct o as [[|]|e]; mred; [mleaf Hrow| |mleaf Hrow].
  unfold random_choice.
  destruct (filter _ (elements VALID_CITIES)) as [|c0 l] eqn:Hfil; mred.
  - dec_goal; mred; mleaf Hrow.
  - destruct rg as [|r0 rg]; mred;
      (destruct ((c0 :: l) !! _) as [[|b0 bot]|]; mred;
       [dec_goal; mred; mleaf Hrow | | dec_goal; mred; mleaf Hrow]);
      dec_goal; mred; mleaf Hrow.
Qed.

Lemma engine_turn_summary game user_id text w sc st :
  In game GAMES →
  faults w = [] →
  row_of user_id w = Some (Progress (Some game) sc st) →
  turn_summary user_id game sc st w (engine game user_id text w).2.
Proof.
  unfold GAMES. cbn [In]. intros [<- | [<- | [<- | [<- | []]]]] Hf Hrow.
  - rewrite engine_cities. by apply cities_turn_summary.
  - rewrite engine_guess. by apply guess_turn_summary.
  - rewrite engine_quest. by apply quest_turn_summary.
  - rewrite engine_logic. by apply logic_turn_summary.
Qed.

End TurnSummaries.

(** ** Rows of [game_results] *)

Section Results.

Context `{Platform}.

(** A correct answer to the current riddle is logged with the new score,
    and below 100 the game goes on. *)
Lemma logic_turn_correct user_id text w sc st cur :
  faults w = [] →
  row_of user_id w = Some (Progress (Some LOGIC) sc st) →
  py_index LOGIC_RIDDLES (default 0 (riddle_idx st)) = Some cur →
  str_lower (Py.strip text) = answer cur →
  let w' := (logic_turn user_id text w).2 in
  game_results (db w') = game_results (db w) ++ [(user_id, LOGIC, sc + 10)] ∧
  (sc + 10 < 100 → flag_of AWAITING_GAME w' = flag_of AWAITING_GAME w).
Proof.
  intros Hf Hrow Hcur Hans w'. subst w'.
  destruct w as [d ud fs rg tr]. cbn [faults] in Hf. subst fs.
  unfold logic_turn. mproj. mrun. rewrite Hrow. mred.
  dec_goal; [done|]. rewrite Hcur. mred.
  dec_goal; [|done]. mred.
  dec_goal; mred; [split; [reflexivity|lia]|].
  destruct (py_index LOGIC_RIDDLES (_ `mod` _)); mred; split; reflexivity.
Qed.

(** C4, as the code has it.  In each of the four engines a turn appends
    at most one row to [game_results]; it appends one whenever the stored
    score changes and whenever the turn ends the game.  Logic is no
    exception: a correct answer is logged with the new score, also when
    the game goes on. *)
Theorem results_logged_on_score_and_end user_id game text w sc st :
  In game GAMES →
  faults w = [] →
  text ≠ MENU →
  truthy (flag_of AWAITING_CITY w) = false →
  flag_of AWAITING_GAME w = Some (PyStr game) →
  row_of user_id w = Some (Progress (Some game) sc st) →
  let w' := (handle_message user_id text w).2 in
  let logged s :=
    game_results (db w') = game_results (db w) ++ [(user_id, game, s)] in
  (game_results (db w') = game_results (db w) ∨ ∃ s, logged s) ∧
  (∀ r', row_of user_id w' = Some r' → score r' ≠ sc → logged (score r')) ∧
  (flag_of AWAITING_GAME w' ≠ Some (PyStr game) → ∃ s, logged s) ∧
  (game = LOGIC →
   ∀ cur, py_index LOGIC_RIDDLES (default 0 (riddle_idx st)) = Some cur →
          str_lower (Py.strip text) = answer cur →
          logged (sc + 10) ∧
          (sc + 10 < 100 → flag_of AWAITING_GAME w' = Some (PyStr LOGIC))).
Proof.
  intros Hin Hf Hm Hc Hg Hrow w' logged. subst w' logged. cbn beta.
  rewrite (handle_message_engine user_id text w game) by done.
  split; [|split; [|split]].
  4: { intros -> cur Hcur Hans. rewrite engine_logic.
       destruct (logic_turn_correct user_id text w sc st cur Hf Hrow Hcur Hans)
         as [Hl Hfl].
       split; [exact Hl|]. intros Hlt. rewrite (Hfl Hlt). exact Hg. }
  all: destruct (engine_turn_summary game user_id text w sc st Hin Hf Hrow)
         as (_ & [Hq | [Hs | [Hs | Hs]]]).
  - destruct Hq as (Hr & _). by left.
  - destruct Hs as (Hr & _). right. by eexists.
  - destruct Hs as (Hr & _). right. by eexists.
  - destruct Hs as (Hr & _). right. by eexists.
  - destruct Hq as (_ & _ & _ & _ & st' & Hr' & _).
    intros r' Hr Hne. rewrite Hr' in Hr. by simplify_eq.
  - destruct Hs as (Hr & _ & _ & _ & _ & st' & Hr' & _).
    intros r' Hrr _. rewrite Hr' in Hrr. by simplify_eq.
  - destruct Hs as (Hr & _ & (r0 & Hr' & Hsc) & _).
    intros r' Hrr Hne. rewrite Hr' in Hrr. simplify_eq.
    destruct Hsc as [? | ->]; [done | exact Hr].
  - destruct Hs as (_ & _ & _ & _ & Hr').
    intros r' Hrr Hne. rewrite Hr', Hrow in Hrr. by simplify_eq.
  - destruct Hq as (_ & _ & _ & Hu & _). unfold flag_of. rewrite Hu. intros []. exact Hg.
  - destruct Hs as (_ & _ & _ & Hu & _). unfold flag_of. rewrite Hu. intros []. exact Hg.
  - destruct Hs as (Hr & _). intros _. by eexists.
  - destruct Hs as (Hr & _). intros _. by eexists.
Qed.

End Results.

(** C4, as the claim states it, fails: the first riddle answered
    correctly at score 0 leaves the Logic game open and yet a row with
    the new score is inserted. *)
Lemma logic_logs_intermediate_answer :
  let w' := (handle_message 1 (u "8") DemoWorlds.logic_fresh).2 in
  game_results (db DemoWorlds.logic_fresh) = [] ∧
  game_results (db w') = [(1, LOGIC, 10)] ∧
  flag_of AWAITING_GAME w' = Some (PyStr LOGIC).
Proof. vm_compute. auto. Qed.

Lemma results_logged_on_score_and_end_witness :
  flag_of AWAITING_GAME (handle_message 1 (u "нет") DemoWorlds.logic_fresh).2
    ≠ Some (PyStr LOGIC) ∧
  ∃ s, game_results (db (handle_message 1 (u "нет") DemoWorlds.logic_fresh).2)
       = game_results (db DemoWorlds.logic_fresh) ++ [(1, LOGIC, s)].
Proof.
  assert (Hflag : flag_of AWAITING_GAME
                    (handle_message 1 (u "нет") DemoWorlds.logic_fresh).2
                  ≠ Some (PyStr LOGIC)) by (vm_compute; discriminate).
  split; [exact Hflag|].
  refine (proj1 (proj2 (proj2
    (results_logged_on_score_and_end 1 LOGIC (u "нет") DemoWorlds.logic_fresh 0
       (set_riddle_idx 0 empty_state) _ _ _ _ _ _))) Hflag).
  - unfold GAMES. cbn [In]. auto.
  - reflexivity.
  - discriminate.
  - vm_compute; reflexivity.
  - vm_compute; reflexivity.
  - vm_compute; reflexivity.
Defined.

(** ** The award over a session *)

Section Award.

Context `{Platform}.

(** Turns that reach no engine: "Меню", a pending city prompt, or no
    game named by the flag. *)
Lemma handle_message_no_engine user_id text w :
  faults w = [] →
  text = MENU ∨ truthy (flag_of AWAITING_CITY w) = true ∨
    (∀ g, In g GAMES → flag_of AWAITING_GAME w ≠ Some (PyStr g)) →
  let w' := (handle_message user_id text w).2 in
  faults w' = [] ∧
  game_results (db w') = game_results (db w) ∧
  user_stars (db w') = user_stars (db w) ∧
  user_achievements (db w') = user_achievements (db w) ∧
  game_progress (db w') = game_progress (db w) ∧
  (flag_of AWAITING_GAME w' = flag_of AWAITING_GAME w ∨
   flag_of AWAITING_GAME w' = None).
Proof.
  intros Hf Hcase w'. subst w'.
  destruct (decide (text = MENU)) as [-> | Hm].
  { rewrite handle_message_menu. mproj. rewrite lookup_empty. auto 10. }
  destruct (truthy (flag_of AWAITING_CITY w)) eqn:Hc.
  { rewrite handle_message_weather by done.
    destruct w as [d ud fs rg tr]. cbn [faults] in Hf. subst fs.
    unfold weather_turn. mrun. mproj.
    rewrite lookup_insert_ne by apply flags_distinct. auto 10. }
  destruct Hcase as [? | [? | Hg]]; [done | done |].
  rewrite handle_message_ignored by done. auto 10.
Qed.




Lemma elem_of_insert_unique {A} `{EqDecision A} (x : A) (l : list A) :
  In x (insert_unique x l).
Proof.
  unfold insert_unique. case_decide as Hx.
  - by apply list_elem_of_In.
  - apply in_or_app. right. by left.
Qed.




(** The four game buttons open a session. *)
Lemma callback_starts_session user_id game data current_text current_markup w :
  faults w = [] →
  In (game, data) [(CITIES, D_GAME_CITIES); (GUESS, D_GAME_GUESS);
                   (QUEST, D_GAME_QUEST); (LOGIC, D_GAME_LOGIC)] →
  session_start game user_id
    (handle_callback user_id data current_text current_markup w).2.
Proof.
  intros Hf Hin. destruct w as [d ud fs rg tr]. cbn [faults] in Hf. subst fs.
  unfold session_start, handle_callback.
  cbn [In] in Hin.
  destruct Hin as [[= <- <-] | [[= <- <-] | [[= <- <-] | [[= <- <-] | []]]]];
    unfold mbind at 1, M_bind at 1; cbn [emit];
    do 3 (dec_goal; [discriminate|]);
    match goal with
    | |- context [Py.startswith ?a ?b] => change (Py.startswith a b) with false
    end; cbn iota;
    repeat (dec_goal; [discriminate|]);
    unfold edit_unless_shown; mrun.
  - dec_goal; [|done]. mred. dec_goal; mred; mproj;
      (split; [reflexivity|]; split; [apply lookup_insert_eq|];
       eexists; split; [apply lookup_insert_eq|intros; discriminate]).
  - dec_goal; [|done]. destruct rg; mred; dec_goal; mred; mproj;
      (split; [reflexivity|]; split; [apply lookup_insert_eq|];
       eexists; rewrite lookup_alter_eq, lookup_insert_eq;
       split; [reflexivity|intros; discriminate]).
  - dec_goal; [|done]. mred.
    destruct (py_index QUEST_STAGES 0) eqn:E; [|by vm_compute in E].
    mred. dec_goal; mred; mproj;
      (split; [reflexivity|]; split; [apply lookup_insert_eq|];
       eexists; rewrite lookup_alter_eq, lookup_insert_eq;
       split; [reflexivity|intros; reflexivity]).
  - dec_goal; [|done]. mred.
    destruct (py_index LOGIC_RIDDLES 0) eqn:E; [|by vm_compute in E].
    mred. dec_goal; mred; mproj;
      (split; [reflexivity|]; split; [apply lookup_insert_eq|];
       eexists; rewrite lookup_alter_eq, lookup_insert_eq;
       split; [reflexivity|intros; discriminate]).
Qed.


End Award.



(** The same session when, instead, the statement of [update_stars]
    fails on the tenth right answer: the failure is caught and logged,
    the badge is awarded and the game ends, and the ten stars are never
    granted. *)
Example award_without_stars_after_statement_failure :
  let w0 := World (db DemoWorlds.logic_fresh) (user_data DemoWorlds.logic_fresh)
                  (replicate 31 NoFault ++ [StatementError]) [] [] in
  let r10 := handle_message 1 (u "8") (run 1 DemoWorlds.nine_answers w0) in
  r10.1 = Return () ∧
  row_of 1 r10.2 = Some (Progress (Some LOGIC) 100 (set_riddle_idx 1 empty_state)) ∧
  user_achievements (db r10.2) = [(1, ACH_LOGIC)] ∧
  stars_of 1 r10.2 = 0 ∧
  flag_of AWAITING_GAME r10.2 = Some (PyBool false).
Proof. vm_compute. repeat split; reflexivity. Qed.

(** ** City-Chain with no reply left *)

(** C5 (the code departs from the claim).  The player says "донецк", the
    bot answers "казань", the player says "нижний новгород": no unused
    city starts with "д", so the player wins with 20 points.  The win is
    logged to [game_results] and the game ends, but [game_progress] is
    not written: it still holds the score and the state of the turn
    before. *)
Theorem cities_win_not_persisted :
  let w1 := (handle_message 1 (u "донецк") DemoWorlds.cities_fresh).2 in
  let w2 := (handle_message 1 (u "нижний новгород") w1).2 in
  row_of 1 w1
  = Some (Progress (Some CITIES) 10
            (set_cities (u "казань") [u "донецк"; u "казань"] empty_state)) ∧
  sent w1 w2 = [reply_text (FCitiesWin (u "д") 20) MAIN_KEYBOARD] ∧
  game_results (db w2) = [(1, CITIES, 10); (1, CITIES, 20)] ∧
  flag_of AWAITING_GAME w2 = Some (PyBool false) ∧
  row_of 1 w2 = row_of 1 w1.
Proof. vm_compute. auto 10. Qed.

(** ** Number-Guessing *)

Lemma hints_distinct : T_LARGER ≠ T_SMALLER.
Proof. intros Heq. vm_compute in Heq. discriminate Heq. Qed.

Lemma sent_app w tr' d ud fs rg :
  sent w (World d ud fs rg (trace w ++ tr')) = tr'.
Proof. unfold sent. cbn [trace]. by rewrite drop_app_length. Qed.

Section Guess.

Context `{Platform}.

(** C6.  A Number-Guessing turn on a store that does not fail.  A text
    that [int] rejects gets the format hint and changes nothing else.  A
    guess other than the target adds one to [attempts], keeps score and
    target, and is answered "larger" exactly when it is below the target
    and "smaller" exactly when it is above.  The target itself adds 10 to
    the score; below 100 a new target between 1 and 100 is drawn and
    [attempts] goes back to 0, and that is the only turn after which a
    counter that was not negative reads 0 again. *)
Theorem guess_turn_spec user_id text w sc st t :
  faults w = [] →
  text ≠ MENU →
  truthy (flag_of AWAITING_CITY w) = false →
  flag_of AWAITING_GAME w = Some (PyStr GUESS) →
  row_of user_id w = Some (Progress (Some GUESS) sc st) →
  target st = Some t →
  let a := default 0 (attempts st) in
  let w' := (handle_message user_id text w).2 in
  match int_of_str (Py.strip text) with
  | None =>
      w' = World (db w) (user_data w) [] (rng w)
                 (trace w ++ [reply_text T_FORMAT_HINT NoKeyboard])
  | Some g =>
      (In (reply_text T_LARGER NoKeyboard) (sent w w') ↔ g < t) ∧
      (In (reply_text T_SMALLER NoKeyboard) (sent w w') ↔ g > t) ∧
      (g ≠ t →
         row_of user_id w' = Some (Progress (Some GUESS) sc (set_attempts (a + 1) st)) ∧
         user_data w' = user_data w) ∧
      (g = t → sc + 10 < 100 →
         ∃ t', 1 <= t' <= 100 ∧
               row_of user_id w'
               = Some (Progress (Some GUESS) (sc + 10)
                         (set_attempts 0 (set_target t' (set_attempts (a + 1) st)))) ∧
               user_data w' = user_data w) ∧
      (g = t → sc + 10 >= 100 →
         row_of user_id w'
         = Some (Progress (Some GUESS) (sc + 10) (set_attempts (a + 1) st)) ∧
         flag_of AWAITING_GAME w' = Some (PyBool false)) ∧
      (0 <= a → ∀ r', row_of user_id w' = Some r' →
         attempts (state r') = Some 0 → g = t ∧ sc + 10 < 100)
  end.
Proof.
  intros Hf Hm Hc Hg Hrow Ht a w'. subst w'.
  rewrite (handle_message_engine user_id text w GUESS)
    by (try done; unfold GAMES; cbn [In]; auto).
  rewrite engine_guess.
  destruct w as [d ud fs rg tr]. cbn [faults] in Hf. subst fs.
  unfold guess_turn, guess_body. mproj.
  destruct (int_of_str (Py.strip text)) as [g|]; mrun; [|reflexivity].
  rewrite Hrow. mred. dec_goal; [done|]. rewrite Ht.
  pose proof hints_distinct as Hd.
  assert (Hin1 : ∀ (x e : event), In x [e] → x = e)
    by (intros x e [Hx | []]; done).
  assert (Hin2 : ∀ (x e1 e2 : event), In x [e1; e2] → x = e1 ∨ x = e2)
    by (intros x e1 e2 [Hx | [Hx | []]]; auto).
  dec_goal; mred.
  - simplify_eq. dec_goal; mred.
    + rewrite <- !app_assoc. rewrite (sent_app (World d ud [] rg tr)).
      mlookups Hrow. split_and!.
      * split; [intros [Hx | Hx]%Hin2; discriminate Hx | lia].
      * split; [intros [Hx | Hx]%Hin2; discriminate Hx | lia].
      * done.
      * lia.
      * intros _ _. split; reflexivity.
      * intros Ha r' Hr' Hatt. simplify_eq. cbn in Hatt. simplify_eq. lia.
    + assert (Hdraw : ∀ n : nat, 1 <= 1 + Z.of_nat (n mod 100) <= 100)
        by (intros k; pose proof (Nat.mod_upper_bound k 100); lia).
      destruct rg as [|r0 rg]; mred;
        rewrite (sent_app (World d ud [] _ tr)); mlookups Hrow; split_and!.
      all: try (split; [intros Hx%Hin1; discriminate Hx | lia]).
      all: try done; try lia.
      all: try (intros _ _; eexists; split; [apply Hdraw | split; reflexivity]).
  - assert (g ≠ t) by congruence.
    dec_goal; mred; rewrite (sent_app (World d ud [] rg tr)); mlookups Hrow;
      split_and!.
    all: try (split; [intros Hx%Hin1; simplify_eq; lia | intros; try lia; by left]).
    all: try done.
    all: try (intros Ha r' Hr' Hatt; simplify_eq; cbn in Hatt; simplify_eq;
              fold a in Ha; lia).
    all: try (split; [intros Hx%Hin1; simplify_eq; by destruct Hd | lia]).
Qed.

End Guess.

Lemma guess_turn_spec_witness :
  In (reply_text T_SMALLER NoKeyboard)
     (sent DemoWorlds.guess_42 (handle_message 1 (u "50") DemoWorlds.guess_42).2) ∧
  row_of 1 (handle_message 1 (u "50") DemoWorlds.guess_42).2
  = Some (Progress (Some GUESS) 0 (set_attempts 1 (set_target 42 empty_state))).
Proof.
  assert (Hs := guess_turn_spec 1 (u "50") DemoWorlds.guess_42 0
                  (set_attempts 0 (set_target 42 empty_state)) 42).
  change (int_of_str (Py.strip (u "50"))) with (Some 50) in Hs.
  destruct Hs as (_ & Hsmaller & Hmiss & _).
  - reflexivity.
  - discriminate.
  - vm_compute; reflexivity.
  - vm_compute; reflexivity.
  - vm_compute; reflexivity.
  - reflexivity.
  - split; [apply Hsmaller; lia|]. apply Hmiss. lia.
Defined.

(** ** The quest *)

(** C7, as the claim states it, fails: "вперёд" is taken as a step
    forward at the second prompt too.  From stage 1 with 10 points it
    leads to stage 2 with 20 points and the quest goes on. *)
Lemma quest_forward_accepted_at_stage_1 :
  let w := DemoWorlds.quest_stage1 in
  let w' := (handle_message 1 (u "вперёд") w).2 in
  row_of 1 w = Some (Progress (Some QUEST) 10 (set_stage 1 empty_state)) ∧
  row_of 1 w' = Some (Progress (Some QUEST) 20 (set_stage 2 empty_state)) ∧
  flag_of AWAITING_GAME w' = Some (PyStr QUEST) ∧
  game_results (db w') = [(1, QUEST, 20)].
Proof. vm_compute. auto. Qed.

Section Quest.

Context `{Platform}.

Lemma quest_turn_one user_id text w sc st :
  faults w = [] →
  row_of user_id w = Some (Progress (Some QUEST) sc st) →
  let k := default 0 (stage st) in
  let w' := (quest_turn user_id text w).2 in
  faults w' = [] ∧
  flag_of AWAITING_CITY w' = flag_of AWAITING_CITY w ∧
  (quest_accepts k text →
     row_of user_id w' = Some (Progress (Some QUEST) (sc + 10) (set_stage (k + 1) st)) ∧
     game_results (db w') = game_results (db w) ++ [(user_id, QUEST, sc + 10)] ∧
     flag_of AWAITING_GAME w'
     = if decide (k + 1 >= 3) then Some (PyBool false) else flag_of AWAITING_GAME w) ∧
  (¬ quest_accepts k text →
     row_of user_id w' = row_of user_id w ∧
     game_results (db w') = game_results (db w) ++ [(user_id, QUEST, sc)] ∧
     flag_of AWAITING_GAME w' = Some (PyBool false) ∧
     sent w w' = [reply_text T_QUEST_FAILED MAIN_KEYBOARD]).
Proof.
  intros Hf Hrow k w'. subst w'. destruct w as [d ud fs rg tr].
  cbn [faults] in Hf. subst fs. unfold quest_turn. mproj. mrun. rewrite Hrow. mred.
  dec_goal; [done|]. fold k. change (Z.of_nat (length QUEST_STAGES)) with 3.
  unfold quest_accepts. pose proof flags_distinct as Hfd.
  dec_goal; mred.
  - dec_goal; mred.
    + dec_goal; mred; mlookups Hrow;
        rewrite lookup_insert_ne by done; split_and!; try done; tauto.
    + destruct (py_index QUEST_STAGES (k + 1)); mred; mlookups Hrow;
        split_and!; try done; tauto.
  - rewrite (sent_app (World d ud [] rg tr)). mlookups Hrow.
    rewrite lookup_insert_ne by done. split_and!; try done; tauto.
Qed.

Lemma quest_inv_step user_id done text w :
  quest_inv user_id done w →
  quest_inv user_id (done ++ [text]) (handle_message user_id text w).2.
Proof.
  intros (Hf & Hc & k & st & Hrow & Hst & Hk3 & Hkd & Hall & Hflag).
  assert (Hlen : (k <= length (done ++ [text]))%nat)
    by (rewrite length_app; cbn; lia).
  assert (Hall' : Forall quest_step (take k (done ++ [text])))
    by (by rewrite take_app_le).
  destruct (decide (text = MENU)) as [-> | Hm].
  { rewrite handle_message_menu. split; [exact Hf|]. split; [reflexivity|].
    exists k, st. split_and!; try done. right. intros g _. unfold flag_of.
    cbn [snd user_data]. by rewrite lookup_empty. }
  destruct Hflag as [(Hg & -> & Hlt) | Hg].
  2: { rewrite handle_message_ignored by done. split; [exact Hf|]. split; [exact Hc|].
       exists k, st. split_and!; try done. by right. }
  rewrite (handle_message_engine user_id text w QUEST)
    by (try done; unfold GAMES; cbn [In]; auto).
  rewrite engine_quest.
  destruct (quest_turn_one user_id text w _ st Hf Hrow) as (Hf' & Hc' & Hacc & Hrej).
  set (w' := (quest_turn user_id text w).2) in *.
  rewrite Hst in Hacc, Hrej. cbn [default from_option id] in Hacc, Hrej.
  split; [exact Hf'|]. split; [by rewrite Hc'|].
  destruct (decide (str_lower text ∈ QUEST_ANSWERS)) as [Hin | Hnin].
  - destruct Hacc as (Hrow' & _ & Hflag'); [split; [done|lia]|].
    exists (S (length done)), (set_stage (Z.of_nat (length done) + 1) st).
    split_and!.
    + rewrite Hrow'. do 2 f_equal; lia.
    + cbn. f_equal. lia.
    + lia.
    + rewrite length_app. cbn. lia.
    + rewrite take_ge by (rewrite length_app; cbn; lia).
      apply Forall_app. split; [|by apply Forall_singleton].
      by rewrite take_ge in Hall by lia.
    + rewrite Hflag'. case_decide.
      * right. by intros g _.
      * left. rewrite length_app. cbn. split_and!; [done|lia|lia].
  - destruct Hrej as (Hrow' & _ & Hflag' & _); [intros [? _]; done|].
    exists (length done), st. split_and!; try done.
    + by rewrite Hrow'.
    + right. intros g _. by rewrite Hflag'.
Qed.

Lemma quest_inv_run user_id texts done w :
  quest_inv user_id done w →
  quest_inv user_id (done ++ texts) (run user_id texts w).
Proof.
  revert done w. induction texts as [|text texts IH]; intros done w Hinv.
  - by rewrite app_nil_r.
  - cbn [run]. replace (done ++ text :: texts) with ((done ++ [text]) ++ texts)
      by (by rewrite <- app_assoc).
    apply IH. by apply quest_inv_step.
Qed.

(** C7, as the code has it.  On a store that does not fail, a quest turn
    at stage [k] is a step forward exactly when the lower-cased text is
    "вперёд" or "да" and [k] is below 3, at every stage alike and with
    no trimming: then the score grows by 10, the stage by 1, the new
    score is logged, and the quest ends once stage 3 is reached.  Any
    other turn leaves score and stage as they are, logs the score,
    answers that the quest failed and ends the game.  A quest that began
    at stage 0 reads stage 3 only when its first three messages were all
    steps forward, and then the score is 30. *)
Theorem quest_steps user_id :
  (∀ text w sc st,
     faults w = [] →
     text ≠ MENU →
     truthy (flag_of AWAITING_CITY w) = false →
     flag_of AWAITING_GAME w = Some (PyStr QUEST) →
     row_of user_id w = Some (Progress (Some QUEST) sc st) →
     let k := default 0 (stage st) in
     let w' := (handle_message user_id text w).2 in
     (quest_accepts k text →
        row_of user_id w'
        = Some (Progress (Some QUEST) (sc + 10) (set_stage (k + 1) st)) ∧
        game_results (db w') = game_results (db w) ++ [(user_id, QUEST, sc + 10)] ∧
        flag_of AWAITING_GAME w'
        = if decide (k + 1 >= 3) then Some (PyBool false) else Some (PyStr QUEST)) ∧
     (¬ quest_accepts k text →
        row_of user_id w' = row_of user_id w ∧
        game_results (db w') = game_results (db w) ++ [(user_id, QUEST, sc)] ∧
        flag_of AWAITING_GAME w' = Some (PyBool false) ∧
        sent w w' = [reply_text T_QUEST_FAILED MAIN_KEYBOARD])) ∧
  (∀ w0 texts r,
     session_start QUEST user_id w0 →
     truthy (flag_of AWAITING_CITY w0) = false →
     row_of user_id (run user_id texts w0) = Some r →
     stage (state r) = Some 3 →
     score r = 30 ∧
     ∃ a b c rest, texts = a :: b :: c :: rest ∧
                   quest_step a ∧ quest_step b ∧ quest_step c).
Proof.
  split.
  - intros text w sc st Hf Hm Hc Hg Hrow k w'. subst w'.
    rewrite (handle_message_engine user_id text w QUEST)
      by (try done; unfold GAMES; cbn [In]; auto).
    rewrite engine_quest.
    destruct (quest_turn_one user_id text w sc st Hf Hrow) as (_ & _ & Hacc & Hrej).
    fold k in Hacc, Hrej. rewrite Hg in Hacc. split; assumption.
  - intros w0 texts r (Hf & Hg & st & Hrow & Hq) Hc Hr Hs3.
    assert (Hinv : quest_inv user_id [] w0).
    { split; [exact Hf|]. split; [exact Hc|]. exists 0%nat, st.
      split_and!; try done; try (cbn; lia).
      - by apply Hq.
      - left. split_and!; [done|done|lia]. }
    apply (quest_inv_run user_id texts) in Hinv. cbn [app] in Hinv.
    destruct Hinv as (_ & _ & k & st' & Hrow' & Hst' & _ & Hkd & Hall & _).
    rewrite Hrow' in Hr. simplify_eq. cbn in Hs3. rewrite Hst' in Hs3.
    assert (k = 3%nat) by (simplify_eq; lia). subst k.
    split; [reflexivity|].
    destruct texts as [|a [|b [|c rest]]]; cbn in Hkd; try lia.
    exists a, b, c, rest. split; [reflexivity|].
    cbn in Hall. inversion Hall as [|? ? Ha Hall1]; subst.
    inversion Hall1 as [|? ? Hb Hall2]; subst.
    inversion Hall2 as [|? ? Hc' _]; subst. auto.
Qed.

End Quest.

Lemma quest_steps_witness :
  let w := DemoWorlds.quest_stage1 in
  let w' := (handle_message 1 (u "Да") w).2 in
  quest_accepts 1 (u "Да") ∧
  row_of 1 w' = Some (Progress (Some QUEST) 20 (set_stage 2 (set_stage 1 empty_state))) ∧
  game_results (db w') = game_results (db w) ++ [(1, QUEST, 20)].
Proof.
  intros w w'.
  assert (Hacc : quest_accepts 1 (u "Да")).
  { split; [|lia]. vm_compute. apply list_elem_of_In. cbn. auto. }
  split; [exact Hacc|].
  destruct (proj1 (quest_steps 1) (u "Да") w 10 (set_stage 1 empty_state))
    as [Hstep _].
  - reflexivity.
  - discriminate.
  - vm_compute; reflexivity.
  - vm_compute; reflexivity.
  - vm_compute; reflexivity.
  - destruct (Hstep Hacc) as (Hrow & Hres & _). split; [exact Hrow | exact Hres].
Defined.

(** ** City-Chain *)

(** *** The playable letter *)

Lemma strip_signs_loop_snoc_sign fuel s c :
  c ∈ SIGNS → strip_signs_loop (S fuel) (s ++ [c]) = strip_signs_loop fuel s.
Proof.
  intros Hc. cbn [strip_signs_loop]. unfold Py.last_char, Py.drop_last.
  rewrite last_snoc, removelast_last. by rewrite bool_decide_eq_true_2.
Qed.

Lemma strip_signs_loop_snoc_letter fuel s c :
  c ∉ SIGNS → strip_signs_loop fuel (s ++ [c]) = s ++ [c].
Proof.
  intros Hc. destruct fuel; [done|]. cbn [strip_signs_loop]. unfold Py.last_char.
  rewrite last_snoc. by rewrite bool_decide_eq_false_2.
Qed.

Lemma strip_signs_loop_nil fuel : strip_signs_loop fuel [] = [].
Proof. by destruct fuel. Qed.

(** The loop runs to its end: what is left is empty or ends in a letter
    that is not a sign. *)
Lemma strip_signs_app body tail :
  Forall (λ c, c ∈ SIGNS) tail →
  (body = [] ∨ ∃ b c, body = b ++ [c] ∧ c ∉ SIGNS) →
  strip_signs (body ++ tail) = body.
Proof.
  unfold strip_signs. intros Htail Hbody.
  induction tail as [|c tail IH] using rev_ind.
  - rewrite app_nil_r. destruct Hbody as [-> | (b & c & -> & Hc)]; [done|].
    by apply strip_signs_loop_snoc_letter.
  - apply Forall_app in Htail as [Htail Hc]. rewrite Forall_singleton in Hc.
    rewrite app_assoc, length_app. cbn [length].
    replace (length (body ++ tail) + 1)%nat with (S (length (body ++ tail))) by lia.
    rewrite strip_signs_loop_snoc_sign by done. by apply IH.
Qed.

Lemma playable_letter_spec body c tail :
  c ∉ SIGNS → Forall (λ c, c ∈ SIGNS) tail →
  playable_letter (body ++ c :: tail) = [c].
Proof.
  intros Hc Htail. unfold playable_letter.
  replace (body ++ c :: tail) with ((body ++ [c]) ++ tail) by (by rewrite <- app_assoc).
  rewrite strip_signs_app; [|done|right; eauto].
  unfold Py.last_char. by rewrite last_snoc.
Qed.

Lemma playable_letter_signs s :
  Forall (λ c, c ∈ SIGNS) s → playable_letter s = [].
Proof.
  intros Hs. unfold playable_letter.
  rewrite <- (app_nil_l s). rewrite strip_signs_app; [done|done|by left].
Qed.

Lemma startswith_head c rest : Py.startswith (c :: rest) [c] = true.
Proof. cbn. by rewrite N.eqb_refl. Qed.

(** *** Chains *)

Lemma chain_snoc l x :
  chain l →
  (∀ a, last l = Some a → Py.startswith x (playable_letter a) = true) →
  chain (l ++ [x]).
Proof.
  induction l as [|a [|b l] IH]; intros Hl Hx; [done| |].
  - cbn. split; [|done]. by apply Hx.
  - destruct Hl as [Hab Hl]. cbn [app chain]. split; [exact Hab|].
    apply IH; [exact Hl|]. intros a' Ha'. apply Hx. exact Ha'.
Qed.

Lemma empty_state_ok : cities_state_ok empty_state.
Proof. split_and!; [constructor|done|by left]. Qed.

(** *** Table invariants under any failure *)

Section Keeps.

Context {A B : Type} (I : database → Prop).

Lemma keeps_ret (a : A) (Q : A → Prop) : Q a → keeps I (mret a) Q.
Proof. intros Ha w Hw. split; [exact Hw|]. intros a' [= <-]. exact Ha. Qed.

Lemma keeps_raise e (Q : A → Prop) : keeps I (raise e) Q.
Proof. intros w Hw. split; [exact Hw|]. intros a' [=]. Qed.

Lemma keeps_bind (m : M A) (k : A → M B) Q1 Q2 :
  keeps I m Q1 → (∀ a, Q1 a → keeps I (k a) Q2) → keeps I (m ≫= k) Q2.
Proof.
  intros Hm Hk w Hw. unfold mbind, M_bind.
  destruct (Hm w Hw) as [Hw1 Hq]. destruct (m w) as [[a|e] w1]; cbn in *.
  - apply Hk; [by apply Hq | exact Hw1].
  - split; [exact Hw1|]. intros a' [=].
Qed.

Lemma keeps_weaken (m : M A) (Q Q' : A → Prop) :
  keeps I m Q → (∀ a, Q a → Q' a) → keeps I m Q'.
Proof. intros Hm Hq w Hw. destruct (Hm w Hw) as [? ?]. split; eauto. Qed.

Lemma keeps_accessor name (dflt : A) stmt (Q : A → Prop) :
  (∀ d, I d → I (stmt d).2 ∧ Q (stmt d).1) → Q dflt →
  keeps I (accessor name dflt stmt) Q.
Proof.
  intros Hs Hd w Hw.
  destruct (accessor_cases name dflt stmt w)
    as (_ & _ & _ & [(Hr & Hdb & _) | (Hdb & _ & [Hr | Hr])]);
    rewrite Hdb; destruct (Hs (db w) Hw) as [Hi Hq];
    (split; [assumption|]); intros a Ha; rewrite Hr in Ha; by simplify_eq.
Qed.

End Keeps.

Section KeepsBasic.

Context (I : database → Prop).

Lemma keeps_emit ev : keeps I (emit ev) (λ _, True).
Proof. intros w Hw. by split. Qed.

Lemma keeps_set_flag key v : keeps I (set_flag key v) (λ _, True).
Proof. intros w Hw. by split. Qed.

Lemma keeps_clear_flags : keeps I clear_flags (λ _, True).
Proof. intros w Hw. by split. Qed.

Lemma keeps_get_flag key : keeps I (get_flag key) (λ _, True).
Proof. intros w Hw. by split. Qed.

Lemma keeps_next_random : keeps I next_random (λ _, True).
Proof. intros w Hw. unfold next_random. by destruct (rng w). Qed.

Lemma keeps_randint : keeps I randint_1_100 (λ _, True).
Proof.
  eapply keeps_bind; [apply keeps_next_random|]. intros n _. by apply keeps_ret.
Qed.

Lemma keeps_random_choice l :
  keeps I (random_choice l) (λ o, ∀ x, o = Some x → x ∈ l).
Proof.
  unfold random_choice. destruct l as [|c l]; [by apply keeps_ret|].
  eapply keeps_bind; [apply keeps_next_random|]. intros n _. apply keeps_ret.
  intros x Hx. by apply list_elem_of_lookup_2 in Hx.
Qed.

Lemma keeps_index_or_raise {A} (l : list A) i :
  keeps I (index_or_raise l i) (λ x, py_index l i = Some x).
Proof.
  unfold index_or_raise. destruct (py_index l i); [by apply keeps_ret|apply keeps_raise].
Qed.

(** An accessor whose statement leaves [game_progress] alone keeps every
    property of that table. *)
Lemma keeps_other_table {A} (P : gmap Z progress → Prop) name (dflt : A) stmt :
  (∀ d, game_progress (stmt d).2 = game_progress d) →
  keeps (λ d, P (game_progress d)) (accessor name dflt stmt) (λ _, True).
Proof.
  intros Hs. apply keeps_accessor; [|done]. intros d Hd. by rewrite Hs.
Qed.

End KeepsBasic.

(** *** The stored City-Chain state stays well formed *)

Lemma ok_set_attempts a st : cities_state_ok st → cities_state_ok (set_attempts a st).
Proof. done. Qed.
Lemma ok_set_target t st : cities_state_ok st → cities_state_ok (set_target t st).
Proof. done. Qed.
Lemma ok_set_stage n st : cities_state_ok st → cities_state_ok (set_stage n st).
Proof. done. Qed.
Lemma ok_set_riddle_idx n st : cities_state_ok st → cities_state_ok (set_riddle_idx n st).
Proof. done. Qed.

(** An accepted city and the bot's answer extend a well-formed state. *)
Lemma ok_set_cities st city bot (candidates : list str) :
  let used := default [] (used_cities st) in
  let last_named := default [] (last_city st) in
  cities_state_ok st →
  city ∉ used →
  (last_named = [] ∨ ∃ c rest, city = c :: rest ∧ [c] = playable_letter last_named) →
  bot ∈ filter (λ c, Py.startswith c (playable_letter city) = true ∧ c ∉ used ++ [city])
               candidates →
  bot ≠ [] →
  cities_state_ok (set_cities bot ((used ++ [city]) ++ [bot]) st).
Proof.
  intros used last_named (Hnd & Hch & Hlast) Hnew Hletter Hbot Hne.
  cbn zeta in Hnd, Hch, Hlast. subst used last_named.
  apply list_elem_of_filter in Hbot as [[Hstart Hfresh] _].
  unfold cities_state_ok. cbn [set_cities used_cities last_city default from_option id].
  split_and!.
  - apply NoDup_app. split; [|split].
    + apply NoDup_app. split; [exact Hnd|]. split; [|apply NoDup_singleton].
      intros x Hx Hx'. apply list_elem_of_singleton in Hx'. by subst.
    + intros x Hx Hx'. apply list_elem_of_singleton in Hx'. by subst.
    + apply NoDup_singleton.
  - apply chain_snoc.
    + apply chain_snoc; [exact Hch|]. intros a Ha.
      destruct Hlast as [[_ Hu] | [Hn Hl]].
      * rewrite Hu in Ha. discriminate Ha.
      * rewrite Hl in Ha. simplify_eq.
        destruct Hletter as [? | (c & rest & -> & Hc)]; [done|].
        rewrite <- Hc. apply startswith_head.
    + intros a Ha. rewrite last_snoc in Ha. by simplify_eq.
  - right. split; [exact Hne|]. apply last_snoc.
Qed.

Section KeepsProgress.

Context `{Platform} (user_id : Z).

Lemma keeps_get_game_state :
  keeps (progress_ok user_id) (get_game_state user_id) (λ r, cities_state_ok r.2).
Proof.
  apply keeps_accessor; [|apply empty_state_ok]. intros d Hd. split; [exact Hd|].
  destruct (game_progress d !! user_id) as [r|] eqn:Hr; cbn.
  - by apply Hd.
  - apply empty_state_ok.
Qed.

Lemma keeps_update_game_state new_score new_state :
  cities_state_ok new_state →
  keeps (progress_ok user_id) (update_game_state user_id new_score new_state) (λ _, True).
Proof.
  intros Hok. apply keeps_accessor; [|done]. intros d Hd. split; [|done].
  intros r. cbn. rewrite lookup_alter_eq.
  destruct (game_progress d !! user_id); cbn; [|done]. intros [= <-]. exact Hok.
Qed.

Lemma keeps_save_game_result game final :
  keeps (progress_ok user_id) (save_game_result user_id game final) (λ _, True).
Proof. by apply (keeps_other_table (λ t, ∀ r, t !! user_id = Some r → _)). Qed.

Lemma keeps_award_achievement achievement :
  keeps (progress_ok user_id) (award_achievement user_id achievement) (λ _, True).
Proof. by apply (keeps_other_table (λ t, ∀ r, t !! user_id = Some r → _)). Qed.

Lemma keeps_update_stars amount :
  keeps (progress_ok user_id) (update_stars user_id amount) (λ _, True).
Proof. by apply (keeps_other_table (λ t, ∀ r, t !! user_id = Some r → _)). Qed.

Lemma keeps_log_weather_request city :
  keeps (progress_ok user_id) (log_weather_request user_id city) (λ _, True).
Proof. by apply (keeps_other_table (λ t, ∀ r, t !! user_id = Some r → _)). Qed.

End KeepsProgress.

Ltac kleaf :=
  first
    [ apply keeps_emit | apply keeps_set_flag | apply keeps_clear_flags
    | apply keeps_raise | apply keeps_save_game_result
    | apply keeps_award_achievement | apply keeps_update_stars
    | apply keeps_log_weather_request | apply keeps_randint
    | eapply keeps_weaken; [apply keeps_index_or_raise | done]
    | apply keeps_update_game_state;
      eauto using ok_set_attempts, ok_set_target, ok_set_stage, ok_set_riddle_idx
    | by apply keeps_ret ].

Ltac kgo :=
  lazymatch goal with
  | |- keeps _ (mbind _ _) _ =>
      eapply keeps_bind with (Q1 := λ _, True); [kgo | intros ? _; kgo]
  | |- keeps _ (if decide _ then _ else _) _ => case_decide; kgo
  | |- _ => first [kleaf | idtac]
  end.

Section KeepsHandlers.

Context `{Platform} (user_id : Z).

Lemma keeps_quest_turn text :
  keeps (progress_ok user_id) (quest_turn user_id text) (λ _, True).
Proof.
  unfold quest_turn.
  eapply keeps_bind; [apply keeps_get_game_state|]. intros [[gn sc] st] Hok.
  cbn [snd] in Hok. kgo.
Qed.

Lemma keeps_logic_turn text :
  keeps (progress_ok user_id) (logic_turn user_id text) (λ _, True).
Proof.
  unfold logic_turn.
  eapply keeps_bind; [apply keeps_get_game_state|]. intros [[gn sc] st] Hok.
  cbn [snd] in Hok. kgo.
Qed.

Lemma keeps_guess_body text :
  keeps (progress_ok user_id) (guess_body user_id text) (λ _, True).
Proof.
  unfold guess_body.
  eapply keeps_bind with (Q1 := λ _, True);
    [destruct (int_of_str _); [by apply keeps_ret|apply keeps_raise]|].
  intros g _.
  eapply keeps_bind; [apply keeps_get_game_state|]. intros [[gn sc] st] Hok.
  cbn [snd] in Hok. kgo. destruct (target st); kgo.
Qed.

Lemma keeps_guess_turn text :
  keeps (progress_ok user_id) (guess_turn user_id text) (λ _, True).
Proof.
  intros w Hw. unfold guess_turn.
  destruct (keeps_guess_body text w Hw) as [Hdb _].
  destruct (guess_body user_id text w) as [[[]|[]] w']; by split.
Qed.

Lemma keeps_cities_turn text :
  keeps (progress_ok user_id) (cities_turn user_id text) (λ _, True).
Proof.
  unfold cities_turn.
  eapply keeps_bind; [apply keeps_get_game_state|]. intros [[gn sc] st] Hok.
  cbn [snd] in Hok. case_decide; [kgo|].
  case_decide as Hvalid; [kgo|]. case_decide as Hused; [kgo|].
  set (city := str_lower (Py.strip text)) in *.
  eapply keeps_bind with
    (Q1 := λ wrong : bool, wrong = false →
       default [] (last_city st) = [] ∨
       ∃ c rest, city = c :: rest ∧ [c] = playable_letter (default [] (last_city st))).
  { destruct (default [] (last_city st)) as [|l0 l] eqn:Hl; [apply keeps_ret; auto|].
    eapply keeps_bind; [apply keeps_index_or_raise|]. intros c Hc. apply keeps_ret.
    intros Hw. apply bool_decide_eq_false in Hw. apply dec_stable in Hw.
    right. unfold py_index in Hc. cbn in Hc. destruct city as [|c' rest]; [done|].
    change (Z.to_nat 0) with O in Hc. cbn in Hc. simplify_eq. eauto. }
  intros [|] Hletter; [kgo|]. specialize (Hletter eq_refl).
  eapply keeps_bind; [apply keeps_random_choice|]. intros [[|b0 bot]|] Hbot;
    [kgo | | kgo].
  specialize (Hbot _ eq_refl).
  eapply keeps_bind.
  { apply keeps_update_game_state. eapply ok_set_cities; eauto. }
  intros _ _. kgo.
Qed.

Lemma keeps_weather_turn text :
  keeps (progress_ok user_id) (weather_turn user_id text) (λ _, True).
Proof. unfold weather_turn. kgo. Qed.

Lemma keeps_handle_message text :
  keeps (progress_ok user_id) (handle_message user_id text) (λ _, True).
Proof.
  unfold handle_message. case_decide; [kgo|].
  eapply keeps_bind; [apply keeps_get_flag|]. intros awaiting_city _.
  eapply keeps_bind; [apply keeps_get_flag|]. intros awaiting_game _.
  destruct (truthy awaiting_city); [apply keeps_weather_turn|].
  repeat case_decide;
    auto using keeps_cities_turn, keeps_guess_turn, keeps_quest_turn, keeps_logic_turn.
  by apply keeps_ret.
Qed.

Lemma keeps_run texts w :
  progress_ok user_id (db w) → progress_ok user_id (db (run user_id texts w)).
Proof.
  revert w. induction texts as [|text texts IH]; intros w Hw; [done|].
  cbn [run]. apply IH. by apply keeps_handle_message.
Qed.

End KeepsHandlers.

(** *** Rejected cities *)

(** A read that names a game came from the row, through a call in which
    nothing failed. *)
Lemma get_game_state_named user_id w game sc st w1 :
  get_game_state user_id w = (Return (Some game, sc, st), w1) →
  w1 = World (db w) (user_data w) (tl (faults w)) (rng w) (trace w) ∧
  row_of user_id w = Some (Progress (Some game) sc st).
Proof.
  destruct w as [d ud fs rg tr]. unfold get_game_state, row_of. cbn [db].
  destruct fs as [|[] fs]; mred; try (intros [=]; fail);
    (destruct (game_progress d !! user_id) as [[gn s0 st0]|]; cbn;
     intros [=]; by simplify_eq).
Qed.

Section CitiesRejects.

Context `{Platform}.

Lemma cities_rejects user_id text w sc st w1 :
  text ≠ MENU →
  truthy (flag_of AWAITING_CITY w) = false →
  flag_of AWAITING_GAME w = Some (PyStr CITIES) →
  get_game_state user_id w = (Return (Some CITIES, sc, st), w1) →
  let city := str_lower (Py.strip text) in
  let last_named := default [] (last_city st) in
  let used := default [] (used_cities st) in
  let rejected m :=
    handle_message user_id text w
    = (Return (), World (db w) (user_data w) (tl (faults w)) (rng w)
                        (trace w ++ [reply_text m NoKeyboard])) in
  (city ∉ VALID_CITIES → rejected T_CITY_INVALID) ∧
  (city ∈ VALID_CITIES → city ∈ used → rejected T_CITY_USED) ∧
  (city ∈ VALID_CITIES → city ∉ used → last_named ≠ [] →
   ∀ c rest, city = c :: rest → [c] ≠ playable_letter last_named →
   rejected (FCitiesLetter (playable_letter last_named))).
Proof.
  intros Hm Hc Hg Hget city last_named used rejected. subst rejected. cbn beta.
  destruct (get_game_state_named _ _ _ _ _ _ Hget) as [-> _].
  rewrite (handle_message_engine user_id text w CITIES)
    by (try done; unfold GAMES; cbn [In]; auto).
  rewrite engine_cities. unfold cities_turn, mbind, M_bind. rewrite Hget. cbn iota.
  fold city last_named used. case_decide; [done|].
  split_and!.
  - intros Hv. case_decide; [|done]. reflexivity.
  - intros Hv Hu. case_decide; [done|]. case_decide; [|done]. reflexivity.
  - intros Hv Hu Hl c rest Hcity Hne.
    case_decide; [done|]. case_decide; [done|].
    destruct last_named as [|l0 l] eqn:El; [done|].
    rewrite Hcity. unfold index_or_raise, py_index.
    change (Z.to_nat 0) with O. cbn [Z.leb Z.compare lookup list_lookup].
    mred. rewrite bool_decide_eq_true_2 by done. reflexivity.
Qed.

End CitiesRejects.

(** C1, as the claim states it, fails in its last part: the letter an
    accepted city must start with comes from [last_city], which is the
    bot's reply and not the city the player had accepted before.  After
    "москва" (accepted, the bot answers "архангельск") the city "курск"
    is accepted, and it does not start with "а", the playable letter of
    "москва". *)
Lemma cities_second_city_follows_bot :
  let w1 := (handle_message 1 (u "москва") DemoWorlds.cities_fresh).2 in
  let w2 := (handle_message 1 (u "курск") w1).2 in
  (score <$> row_of 1 w1) = Some 10 ∧
  (last_city ∘ state <$> row_of 1 w1) = Some (Some (u "архангельск")) ∧
  (score <$> row_of 1 w2) = Some 20 ∧
  (used_cities ∘ state <$> row_of 1 w2)
  = Some (Some [u "москва"; u "архангельск"; u "курск"; u "казань"]) ∧
  playable_letter (u "москва") = u "а" ∧
  Py.startswith (u "курск") (playable_letter (u "москва")) = false.
Proof. vm_compute. auto 10. Qed.

(** C1, as the code has it.  With the City-Chain row read, a city that
    is not in the valid set, or is already in [used_cities], or whose
    first letter differs from the playable letter of a non-empty
    [last_city], is answered with the matching refusal and nothing else
    changes: no table, no flag.  The playable letter of a text is its
    last character once the trailing "ь" and "ъ" are gone, and empty
    when nothing else is left.  And whatever fails in the store and
    whatever [random] draws, the stored state stays well formed over any
    messages: [used_cities] has no duplicates, each of its cities after
    the first (the player's and the bot's, in turn) starts with the
    playable letter of the one before it, and [last_city] is the last of
    them. *)
Theorem cities_chain `{Platform} user_id :
  (∀ text w sc st w1,
     text ≠ MENU →
     truthy (flag_of AWAITING_CITY w) = false →
     flag_of AWAITING_GAME w = Some (PyStr CITIES) →
     get_game_state user_id w = (Return (Some CITIES, sc, st), w1) →
     let city := str_lower (Py.strip text) in
     let last_named := default [] (last_city st) in
     let used := default [] (used_cities st) in
     let rejected m :=
       handle_message user_id text w
       = (Return (), World (db w) (user_data w) (tl (faults w)) (rng w)
                           (trace w ++ [reply_text m NoKeyboard])) in
     (city ∉ VALID_CITIES → rejected T_CITY_INVALID) ∧
     (city ∈ VALID_CITIES → city ∈ used → rejected T_CITY_USED) ∧
     (city ∈ VALID_CITIES → city ∉ used → last_named ≠ [] →
      ∀ c rest, city = c :: rest → [c] ≠ playable_letter last_named →
      rejected (FCitiesLetter (playable_letter last_named)))) ∧
  (∀ body c tail,
     c ∉ SIGNS → Forall (λ c, c ∈ SIGNS) tail →
     playable_letter (body ++ c :: tail) = [c]) ∧
  (∀ s, Forall (λ c, c ∈ SIGNS) s → playable_letter s = []) ∧
  (∀ w texts r,
     (∀ r0, row_of user_id w = Some r0 → cities_state_ok (state r0)) →
     row_of user_id (run user_id texts w) = Some r →
     let used := default [] (used_cities (state r)) in
     NoDup used ∧ chain used ∧
     ((default [] (last_city (state r)) = [] ∧ used = []) ∨
      (default [] (last_city (state r)) ≠ [] ∧
       last used = Some (default [] (last_city (state r)))))).
Proof.
  split_and!.
  - apply cities_rejects.
  - apply playable_letter_spec.
  - apply playable_letter_signs.
  - intros w texts r Hw Hr. by apply (keeps_run user_id texts w Hw r).
Qed.

Lemma cities_chain_witness :
  let used := [u "москва"; u "архангельск"; u "курск"; u "казань"] in
  (used_cities ∘ state <$> row_of 1 (run 1 [u "москва"; u "курск"] DemoWorlds.cities_fresh))
  = Some (Some used) ∧
  NoDup used ∧ chain used.
Proof.
  intros used.
  assert (Hrow : row_of 1 (run 1 [u "москва"; u "курск"] DemoWorlds.cities_fresh)
                 = Some (Progress (Some CITIES) 20
                           (set_cities (u "казань") used empty_state)))
    by (vm_compute; reflexivity).
  split; [by rewrite Hrow|].
  destruct (proj2 (proj2 (proj2 (cities_chain 1))) DemoWorlds.cities_fresh
              [u "москва"; u "курск"]
              (Progress (Some CITIES) 20 (set_cities (u "казань") used empty_state)))
    as (Hnd & Hch & _).
  - intros r0 Hr0. vm_compute in Hr0. injection Hr0 as <-. apply empty_state_ok.
  - exact Hrow.
  - split; [exact Hnd | exact Hch].
Defined.

(** ** The scenarios of the specification, run on the model *)

(** "москва" opens the chain: accepted, 10 points, the bot answers with
    a city on "а"; "москва" again is refused as already named. *)
Example scenario_cities :
  let w1 := (handle_message 1 (u "москва") DemoWorlds.cities_fresh).2 in
  let w2 := (handle_message 1 (u "москва") w1).2 in
  sent DemoWorlds.cities_fresh w1
  = [reply_text (FCitiesNext (u "архангельск") 10) NoKeyboard] ∧
  sent w1 w2 = [reply_text T_CITY_USED NoKeyboard] ∧
  db w2 = db w1.
Proof. vm_compute. auto. Qed.

(** Target 42: "50" is too large; "42" scores 10, a new target is drawn
    and the attempts start again from 0. *)
Example scenario_guess :
  let w1 := (handle_message 1 (u "50") DemoWorlds.guess_42).2 in
  let w2 := (handle_message 1 (u "42") w1).2 in
  sent DemoWorlds.guess_42 w1 = [reply_text T_SMALLER NoKeyboard] ∧
  sent w1 w2 = [reply_text (FGuessNext 2 10) NoKeyboard] ∧
  row_of 1 w2
  = Some (Progress (Some GUESS) 10 (set_attempts 0 (set_target 1 empty_state))).
Proof. vm_compute. auto. Qed.

(** "8" answers the first riddle: 10 points and the second riddle; a
    wrong answer there ends the game and shows the right one. *)
Example scenario_logic :
  let w1 := (handle_message 1 (u "8") DemoWorlds.logic_fresh).2 in
  let w2 := (handle_message 1 (u "часы") w1).2 in
  row_of 1 w1 = Some (Progress (Some LOGIC) 10 (set_riddle_idx 1 empty_state)) ∧
  sent w1 w2 = [reply_text (FLogicWrong (u "время")) MAIN_KEYBOARD] ∧
  flag_of AWAITING_GAME w2 = Some (PyBool false).
Proof. vm_compute. auto. Qed.

(** * Further properties of the code *)

(** ** The store, call by call *)

Lemma insert_unique_keeps {A} `{EqDecision A} (x y : A) (l : list A) :
  y ∈ l → y ∈ insert_unique x l.
Proof.
  intros Hy. unfold insert_unique. case_decide; [done|].
  apply elem_of_app. by left.
Qed.

Lemma insert_unique_inv {A} `{EqDecision A} (x y : A) (l : list A) :
  y ∈ insert_unique x l → y = x ∨ y ∈ l.
Proof.
  unfold insert_unique. case_decide; [by right|].
  intros [Hy | Hy%list_elem_of_singleton]%elem_of_app; auto.
Qed.

Lemma insert_unique_NoDup {A} `{EqDecision A} (x : A) (l : list A) :
  NoDup l → NoDup (insert_unique x l).
Proof.
  intros Hl. unfold insert_unique. case_decide as Hx; [done|].
  apply NoDup_app. split; [done|]. split; [|apply NoDup_singleton].
  intros y Hy Hy'. apply list_elem_of_singleton in Hy'. by subst.
Qed.

(** Favourites ([save_favorite_city], [get_favorite_city]): saving never
    removes a favourite already stored, saving the same city again
    changes nothing, a read after a save returns a city of that user, and
    for a user who had none it returns the city just saved. *)
Theorem favorite_saved_then_read user_id city d ud rg tr :
  let w := World d ud [] rg tr in
  let w1 := (save_favorite_city user_id city w).2 in
  (∀ row, row ∈ favorite_cities d → row ∈ favorite_cities (db w1)) ∧
  (save_favorite_city user_id city w1).2 = w1 ∧
  (∃ c, (get_favorite_city user_id w1).1 = Return (Some c) ∧
        (user_id, c) ∈ favorite_cities (db w1)) ∧
  ((∀ c, (user_id, c) ∉ favorite_cities d) →
   (get_favorite_city user_id w1).1 = Return (Some city)).
Proof.
  intros w w1. subst w w1. unfold save_favorite_city, get_favorite_city.
  rewrite !accessor_ok. cbn [fst snd]. rewrite !accessor_ok. mproj.
  set (t := insert_unique (user_id, city) (favorite_cities d)).
  assert (Hin : (user_id, city) ∈ t) by apply list_elem_of_In, elem_of_insert_unique.
  assert (Hread : ∃ c, snd <$> head (filter (λ r : Z * list N, r.1 = user_id) t) = Some c
                       ∧ (user_id, c) ∈ t).
  { destruct (filter (λ r : Z * list N, r.1 = user_id) t) as [|[u c] l] eqn:Hf.
    - exfalso. eapply (filter_nil_not_elem_of _ t (user_id, city)); [exact Hf|done|done].
    - exists c. split; [reflexivity|].
      assert (Hx : (u, c) ∈ filter (λ r : Z * list N, r.1 = user_id) t)
        by (rewrite Hf; left).
      apply list_elem_of_filter in Hx as [Hu ?]. cbn in Hu. by subst. }
  split_and!.
  - intros row. apply insert_unique_keeps.
  - f_equal. unfold with_favorite_cities. cbn. f_equal.
    unfold insert_unique at 1. by rewrite decide_True.
  - destruct Hread as (c & Hc & Hc'). exists c. by rewrite Hc.
  - intros Hnone. destruct Hread as (c & Hc & Hc'). rewrite Hc.
    apply insert_unique_inv in Hc' as [[= ->] | Hc']; [done|]. by apply Hnone in Hc'.
Qed.

Lemma favorite_saved_then_read_witness :
  (get_favorite_city 7 (save_favorite_city 7 (u "курск")
                          (World empty_db ∅ [] [] [])).2).1
  = Return (Some (u "курск")).
Proof.
  apply (favorite_saved_then_read 7 (u "курск") empty_db ∅ [] []).
  intros c Hc. by apply elem_of_nil in Hc.
Defined.

(** Game progress ([start_game], [update_game_state], [get_game_state]):
    starting a game replaces whatever row the user had by score 0 and an
    empty state; an update on a user without a row writes nothing, so the
    read still gives the default; on a user with a row it replaces score
    and state and keeps the name of the game. *)
Theorem progress_written_then_read user_id game new_score new_state d ud rg tr :
  let w := World d ud [] rg tr in
  (get_game_state user_id (start_game user_id game w).2).1
  = Return (Some game, 0, empty_state) ∧
  (game_progress d !! user_id = None →
   (update_game_state user_id new_score new_state w).2 = w ∧
   (get_game_state user_id (update_game_state user_id new_score new_state w).2).1
   = Return (None, 0, empty_state)) ∧
  (∀ r, game_progress d !! user_id = Some r →
   (get_game_state user_id (update_game_state user_id new_score new_state w).2).1
   = Return (game_name r, new_score, new_state)).
Proof.
  intros w. subst w. unfold start_game, update_game_state, get_game_state.
  rewrite !accessor_ok. cbn [fst snd]. rewrite !accessor_ok. mproj.
  split_and!.
  - by rewrite lookup_insert_eq.
  - intros Hnone. rewrite lookup_alter_eq, Hnone. split; [|done].
    f_equal. unfold with_game_progress. destruct d. cbn in *. f_equal.
    apply map_eq. intros i. rewrite lookup_alter.
    case_decide; [subst; by rewrite Hnone|done].
  - intros r Hr. by rewrite lookup_alter_eq, Hr.
Qed.

Lemma progress_written_then_read_witness :
  (update_game_state 7 50 empty_state (World empty_db ∅ [] [] [])).2
  = World empty_db ∅ [] [] [].
Proof.
  apply (progress_written_then_read 7 GUESS 50 empty_state empty_db ∅ [] []).
  apply lookup_empty.
Defined.

(** Stars ([get_stars], [update_stars]): a user without a row counts as
    0; a read creates that row and a second read changes nothing more; a
    read after a grant returns the old balance plus the amount. *)
Theorem stars_granted_then_read user_id amount d ud rg tr :
  let w := World d ud [] rg tr in
  let w1 := (get_stars user_id w).2 in
  (get_stars user_id w).1 = Return (stars_of user_id w) ∧
  user_stars (db w1) !! user_id = Some (stars_of user_id w) ∧
  get_stars user_id w1 = (Return (stars_of user_id w), w1) ∧
  (get_stars user_id (update_stars user_id amount w).2).1
  = Return (stars_of user_id w + amount).
Proof.
  intros w w1. subst w w1. unfold get_stars, update_stars.
  rewrite !accessor_ok. cbn [fst snd]. mproj.
  destruct (user_stars d !! user_id) as [n|] eqn:Hn; cbn [fst snd default from_option id];
    rewrite !accessor_ok; mproj; rewrite ?Hn, ?lookup_insert_eq; cbn; split_and!;
    try done; f_equal; lia.
Qed.

(** The tables whose whole row is the primary key ([favorite_cities],
    [user_achievements]) never get a duplicate row, whatever fails. *)
Theorem unique_rows_kept user_id city achievement w :
  NoDup (favorite_cities (db w)) →
  NoDup (user_achievements (db w)) →
  NoDup (favorite_cities (db (save_favorite_city user_id city w).2)) ∧
  NoDup (user_achievements (db (award_achievement user_id achievement w).2)).
Proof.
  intros Hf Ha. unfold save_favorite_city, award_achievement. split.
  - destruct (accessor_cases Asave_favorite_city ()
      (λ d, ((), with_favorite_cities
                   (insert_unique (user_id, city) (favorite_cities d)) d)) w)
      as (_ & _ & _ & [(_ & -> & _) | (-> & _)]); [|done].
    cbn. by apply insert_unique_NoDup.
  - destruct (accessor_cases Aaward_achievement ()
      (λ d, ((), with_user_achievements
                   (insert_unique (user_id, achievement) (user_achievements d)) d)) w)
      as (_ & _ & _ & [(_ & -> & _) | (-> & _)]); [|done].
    cbn. by apply insert_unique_NoDup.
Qed.

Lemma unique_rows_kept_witness :
  let w := (award_achievement 7 ACH_LOGIC (World empty_db ∅ [] [] [])).2 in
  NoDup (user_achievements (db (award_achievement 7 ACH_LOGIC w).2)) ∧
  user_achievements (db (award_achievement 7 ACH_LOGIC w).2) = [(7, ACH_LOGIC)].
Proof.
  intros w. split; [|reflexivity].
  apply (unique_rows_kept 7 (u "курск") ACH_LOGIC w).
  - apply NoDup_nil_2.
  - apply NoDup_singleton.
Defined.

(** ** More on the engines *)

Lemma py_index_nonneg {A} (l : list A) i :
  0 <= i → py_index l i = l !! Z.to_nat i.
Proof. intros Hi. unfold py_index. by rewrite (proj2 (Z.leb_le 0 i)). Qed.

Lemma py_index_in_range {A} (l : list A) i :
  0 <= i < Z.of_nat (length l) → ∃ x, py_index l i = Some x ∧ l !! Z.to_nat i = Some x.
Proof.
  intros Hi. rewrite py_index_nonneg by lia.
  destruct (l !! Z.to_nat i) eqn:E; [by eexists|].
  apply lookup_ge_None in E. lia.
Qed.

Section MoreEngines.

Context `{Platform}.

(** Logic-Riddle (lines 428-454).  With the riddle index in range, a
    trimmed, lower-cased text equal to the answer adds 10 points and moves
    to the next riddle, the third one leading back to the first, and the
    game goes on below 100; any other text ends the game, shows the
    answer and writes nothing to [game_progress].  An index of 3 or more
    makes the handler raise [IndexError] before anything is sent or
    written. *)
Theorem logic_turn_cycle user_id text w sc st :
  faults w = [] →
  text ≠ MENU →
  truthy (flag_of AWAITING_CITY w) = false →
  flag_of AWAITING_GAME w = Some (PyStr LOGIC) →
  row_of user_id w = Some (Progress (Some LOGIC) sc st) →
  let idx := default 0 (riddle_idx st) in
  let w' := (handle_message user_id text w).2 in
  (0 <= idx < 3 →
   ∃ cur, LOGIC_RIDDLES !! Z.to_nat idx = Some cur ∧
     if decide (str_lower (Py.strip text) = answer cur) then
       row_of user_id w'
       = Some (Progress (Some LOGIC) (sc + 10) (set_riddle_idx ((idx + 1) `mod` 3) st)) ∧
       flag_of AWAITING_GAME w'
       = (if decide (sc + 10 >= 100) then Some (PyBool false) else Some (PyStr LOGIC))
     else
       row_of user_id w' = Some (Progress (Some LOGIC) sc st) ∧
       flag_of AWAITING_GAME w' = Some (PyBool false) ∧
       sent w w' = [reply_text (FLogicWrong (answer cur)) MAIN_KEYBOARD]) ∧
  (3 <= idx → handle_message user_id text w = (Raise IndexError, w)).
Proof.
  intros Hf Hm Hc Hg Hrow idx w'. subst w'.
  rewrite (handle_message_engine user_id text w LOGIC)
    by (try done; unfold GAMES; cbn [In]; auto).
  rewrite engine_logic. destruct w as [d ud fs rg tr]. cbn [faults] in Hf. subst fs.
  unfold logic_turn. mproj. mrun. rewrite Hrow. mred. dec_goal; [done|]. fold idx.
  split.
  - intros Hidx.
    destruct (py_index_in_range LOGIC_RIDDLES idx) as (cur & Hp & Hl); [cbn; lia|].
    exists cur. split; [exact Hl|]. rewrite Hp. mred.
    change (Z.of_nat (length LOGIC_RIDDLES)) with 3.
    dec_goal; mred.
    + dec_goal; mred; [by mlookups Hrow|].
      destruct (py_index_in_range LOGIC_RIDDLES ((idx + 1) `mod` 3))
        as (next & Hnext & _);
        [pose proof (Z.mod_pos_bound (idx + 1) 3 ltac:(lia)); cbn; lia|].
      rewrite Hnext. mred. by mlookups Hrow.
    + rewrite (sent_app (World d ud [] rg tr)). by mlookups Hrow.
  - intros Hidx. rewrite py_index_nonneg by lia.
    rewrite (proj2 (lookup_ge_None LOGIC_RIDDLES (Z.to_nat idx))) by (cbn; lia).
    reflexivity.
Qed.

(** Number-Guessing on a row without a target (lines 369-388): every
    integer guess ends in [TypeError] at [guess < target]; nothing is
    sent, written or cleared, so the game stays as it is. *)
Theorem guess_without_target user_id text w sc st g :
  faults w = [] →
  text ≠ MENU →
  truthy (flag_of AWAITING_CITY w) = false →
  flag_of AWAITING_GAME w = Some (PyStr GUESS) →
  row_of user_id w = Some (Progress (Some GUESS) sc st) →
  target st = None →
  int_of_str (Py.strip text) = Some g →
  handle_message user_id text w = (Raise TypeError, w).
Proof.
  intros Hf Hm Hc Hg Hrow Ht Hi.
  rewrite (handle_message_engine user_id text w GUESS)
    by (try done; unfold GAMES; cbn [In]; auto).
  rewrite engine_guess. destruct w as [d ud fs rg tr]. cbn [faults] in Hf. subst fs.
  unfold guess_turn, guess_body. mproj. rewrite Hi. mrun. rewrite Hrow. mred.
  dec_goal; [done|]. rewrite Ht. dec_goal; [done|]. reflexivity.
Qed.

(** One message of a quest that began at stage 0 grants no star and
    awards no badge. *)
Lemma quest_turn_no_award user_id done text w :
  quest_inv user_id done w →
  let w' := (handle_message user_id text w).2 in
  user_stars (db w') = user_stars (db w) ∧
  user_achievements (db w') = user_achievements (db w).
Proof.
  intros (Hf & Hc & k & st & Hrow & Hst & Hk3 & Hkd & Hall & Hflag) w'. subst w'.
  destruct (decide (text = MENU)) as [Hm | Hm].
  { destruct (handle_message_no_engine user_id text w Hf (or_introl Hm))
      as (_ & _ & ? & ? & _). done. }
  destruct Hflag as [(Hg & _ & Hlt) | Hg].
  2: { destruct (handle_message_no_engine user_id text w Hf (or_intror (or_intror Hg)))
         as (_ & _ & ? & ? & _). done. }
  rewrite (handle_message_engine user_id text w QUEST)
    by (try done; unfold GAMES; cbn [In]; auto).
  rewrite engine_quest.
  destruct (quest_turn_summary user_id text w _ st Hf Hrow) as (_ & [Hs | [Hs | [Hs | Hs]]]).
  - by destruct Hs as (_ & ? & ? & _).
  - by destruct Hs as (_ & ? & ? & _).
  - destruct Hs as (_ & _ & _ & Haw). case_decide; [lia|]. exact Haw.
  - by destruct Hs as (_ & ? & ? & _).
Qed.

(** Quest (lines 399-426).  A quest started from its button on a store
    that does not fail never grants stars and never awards a badge,
    whatever is sent afterwards: its score stops at 30, below the 100
    that the award asks for. *)
Theorem quest_never_awards user_id w0 texts :
  session_start QUEST user_id w0 →
  truthy (flag_of AWAITING_CITY w0) = false →
  user_stars (db (run user_id texts w0)) = user_stars (db w0) ∧
  user_achievements (db (run user_id texts w0)) = user_achievements (db w0).
Proof.
  intros (Hf & Hg & st & Hrow & Hq) Hc.
  assert (Hinv : quest_inv user_id [] w0).
  { split; [exact Hf|]. split; [exact Hc|]. exists 0%nat, st.
    split_and!; try done; try (cbn; lia).
    - by apply Hq.
    - left. split_and!; [done|done|lia]. }
  clear Hf Hg Hrow Hq Hc. revert Hinv. generalize (@nil (list N)) as seen.
  revert w0. induction texts as [|text texts IH]; intros w seen Hinv; [by split|].
  cbn [run].
  destruct (quest_turn_no_award user_id seen text w Hinv) as [Hs Ha].
  destruct (IH _ _ (quest_inv_step user_id seen text w Hinv)) as [Hs' Ha'].
  split; congruence.
Qed.

End MoreEngines.

Lemma logic_turn_cycle_witness :
  let w := run 1 [u "8"; u "время"] DemoWorlds.logic_fresh in
  let w' := (handle_message 1 (u " Карта ") w).2 in
  row_of 1 w = Some (Progress (Some LOGIC) 20 (set_riddle_idx 2 empty_state)) ∧
  row_of 1 w' = Some (Progress (Some LOGIC) 30 (set_riddle_idx 0 empty_state)).
Proof.
  intros w w'.
  assert (Hrow : row_of 1 w = Some (Progress (Some LOGIC) 20 (set_riddle_idx 2 empty_state)))
    by (vm_compute; reflexivity).
  split; [exact Hrow|].
  destruct (logic_turn_cycle 1 (u " Карта ") w 20 (set_riddle_idx 2 empty_state))
    as [Hin _].
  - reflexivity.
  - discriminate.
  - vm_compute; reflexivity.
  - vm_compute; reflexivity.
  - exact Hrow.
  - destruct Hin as (cur & Hcur & Hturn); [cbn; lia|].
    cbn in Hcur. injection Hcur as <-.
    rewrite decide_True in Hturn by (vm_compute; reflexivity).
    exact (proj1 Hturn).
Defined.

Lemma guess_without_target_witness :
  let w := (handle_callback 1 D_GAME_GUESS None NoKeyboard
              (World empty_db ∅ [NoFault; StatementError] [] [])).2 in
  row_of 1 w = Some (Progress (Some GUESS) 0 empty_state) ∧
  handle_message 1 (u "50") w = (Raise TypeError, w).
Proof.
  intros w.
  assert (Hrow : row_of 1 w = Some (Progress (Some GUESS) 0 empty_state))
    by (vm_compute; reflexivity).
  split; [exact Hrow|].
  apply (guess_without_target 1 (u "50") w 0 empty_state 50).
  - reflexivity.
  - discriminate.
  - vm_compute; reflexivity.
  - vm_compute; reflexivity.
  - exact Hrow.
  - reflexivity.
  - reflexivity.
Defined.

Lemma quest_never_awards_witness :
  let w := run 1 [u "да"; u "ДА"] DemoWorlds.quest_stage0 in
  row_of 1 w = Some (Progress (Some QUEST) 20 (set_stage 2 (set_stage 1 (set_stage 0 empty_state)))) ∧
  user_stars (db w) = ∅ ∧ user_achievements (db w) = [].
Proof.
  intros w. split; [vm_compute; reflexivity|].
  apply (quest_never_awards 1 DemoWorlds.quest_stage0 [u "да"; u "ДА"]).
  - split; [reflexivity|]. split; [vm_compute; reflexivity|].
    eexists. split; [vm_compute; reflexivity|]. intros _. reflexivity.
  - vm_compute; reflexivity.
Defined.

Section CitiesAccept.

Context `{Platform}.

(** City-Chain, an accepted city (lines 326-358).  On a store that does
    not fail, a valid, unused city that fits the required letter scores
    10.  Either the bot answers: with a non-empty valid city that was not
    named before, differs from the player's and starts with the playable
    letter of the player's city; both cities are appended to
    [used_cities], the bot's becomes [last_city], and the game goes on
    below 100.  Or the game ends: then every valid city on that letter is
    already named, unless the empty text is itself a valid city. *)
Theorem cities_turn_accepts user_id text w sc st :
  faults w = [] →
  text ≠ MENU →
  truthy (flag_of AWAITING_CITY w) = false →
  flag_of AWAITING_GAME w = Some (PyStr CITIES) →
  row_of user_id w = Some (Progress (Some CITIES) sc st) →
  let city := str_lower (Py.strip text) in
  let last_named := default [] (last_city st) in
  let used := default [] (used_cities st) in
  city ∈ VALID_CITIES →
  city ∉ used →
  (last_named = [] ∨ ∃ c rest, city = c :: rest ∧ [c] = playable_letter last_named) →
  let w' := (handle_message user_id text w).2 in
  game_results (db w') = game_results (db w) ++ [(user_id, CITIES, sc + 10)] ∧
  ((∃ bot,
      bot ≠ [] ∧ bot ∈ VALID_CITIES ∧ (bot ∉ used ++ [city]) ∧
      Py.startswith bot (playable_letter city) = true ∧
      row_of user_id w'
      = Some (Progress (Some CITIES) (sc + 10)
                (set_cities bot ((used ++ [city]) ++ [bot]) st)) ∧
      flag_of AWAITING_GAME w'
      = (if decide (sc + 10 >= 100) then Some (PyBool false) else Some (PyStr CITIES)))
   ∨ (row_of user_id w' = row_of user_id w ∧
      flag_of AWAITING_GAME w' = Some (PyBool false) ∧
      ((∀ c, c ∈ VALID_CITIES → Py.startswith c (playable_letter city) = true →
             c ∈ used ++ [city])
       ∨ [] ∈ VALID_CITIES))).
Proof.
  intros Hf Hm Hc Hg Hrow city last_named used Hvalid Hnew Hletter w'. subst w'.
  rewrite (handle_message_engine user_id text w CITIES)
    by (try done; unfold GAMES; cbn [In]; auto).
  rewrite engine_cities. destruct w as [d ud fs rg tr]. cbn [faults] in Hf. subst fs.
  unfold cities_turn. mproj. mrun. rewrite Hrow. mred.
  fold city last_named used.
  dec_goal; [done|]. dec_goal; [done|]. dec_goal; [done|].
  set (wrong := match last_named with [] => _ | _ => _ end).
  assert (Hw : wrong (World d ud [] rg tr) = (Return false, World d ud [] rg tr)).
  { subst wrong. destruct last_named as [|l0 l] eqn:El; [done|].
    destruct Hletter as [? | (c & rest & Hcity & Hcl)]; [done|].
    rewrite Hcity. mred. rewrite py_index_nonneg by lia.
    change (Z.to_nat 0) with O. cbn [lookup list_lookup].
    mred. by rewrite bool_decide_eq_false_2 by (by intros ?). }
  rewrite Hw. mred. unfold random_choice.
  set (available := filter _ (elements VALID_CITIES)).
  assert (Hav : ∀ c, c ∈ available ↔
            (Py.startswith c (playable_letter city) = true ∧ c ∉ used ++ [city]) ∧
            c ∈ VALID_CITIES).
  { intros c. subst available. rewrite list_elem_of_filter, elem_of_elements. done. }
  destruct available as [|c0 l] eqn:Eav; mred.
  - (* nothing left to answer with *)
    split; [dec_goal; mred; by mlookups Hrow|]. right.
    split_and!; [dec_goal; mred; by mlookups Hrow | dec_goal; mred; by mlookups Hrow |].
    left. intros c Hcv Hcs. destruct (decide (c ∈ used ++ [city])) as [|Hn]; [done|].
    exfalso. eapply elem_of_nil, Hav. eauto.
  - assert (Hpick : ∀ k, ∃ b, (c0 :: l) !! (k mod length (c0 :: l))%nat = Some b ∧
                              b ∈ c0 :: l).
    { intros k. destruct ((c0 :: l) !! (k mod length (c0 :: l))%nat) as [b|] eqn:E.
      - exists b. split; [done|]. by eapply list_elem_of_lookup_2.
      - apply lookup_ge_None in E.
        pose proof (Nat.mod_upper_bound k (length (c0 :: l))) as Hb. cbn in *. lia. }
    destruct rg as [|r0 rg]; mred;
      (match goal with
       | |- context [_ !! (?k mod _)%nat] => destruct (Hpick k) as (b & -> & Hb)
       end);
      apply Hav in Hb as [[Hbs Hbn] Hbv];
      (destruct b as [|b0 bot]; mred;
       [ split; [dec_goal; mred; by mlookups Hrow|]; right;
         split_and!; [dec_goal; mred; by mlookups Hrow
                     | dec_goal; mred; by mlookups Hrow | by right]
       | split; [dec_goal; mred; by mlookups Hrow|]; left; exists (b0 :: bot);
         split_and!; try done; dec_goal; mred; by mlookups Hrow ]).
Qed.

End CitiesAccept.

Lemma cities_turn_accepts_witness :
  let w' := (handle_message 1 (u "Москва") DemoWorlds.cities_fresh).2 in
  game_results (db w') = [(1, CITIES, 10)] ∧
  ∃ bot, bot ∈ VALID_CITIES ∧ Py.startswith bot (u "а") = true ∧
         (last_city ∘ state <$> row_of 1 w') = Some (Some bot).
Proof.
  intros w'.
  destruct (cities_turn_accepts 1 (u "Москва") DemoWorlds.cities_fresh 0 empty_state)
    as [Hres [(bot & _ & Hv & _ & Hs & Hrow & _) | (Hrow & _)]].
  - reflexivity.
  - discriminate.
  - vm_compute; reflexivity.
  - vm_compute; reflexivity.
  - vm_compute; reflexivity.
  - vm_compute. reflexivity.
  - apply not_elem_of_nil.
  - by left.
  - split; [exact Hres|]. exists bot. split; [exact Hv|]. split; [exact Hs|].
    fold w' in Hrow. by rewrite Hrow.
  - exfalso. fold w' in Hrow. vm_compute in Hrow. discriminate Hrow.
Defined.

(** ** The weather prompt and the buttons *)

Lemma filter_no_row_of (user_id : Z) (table : list (Z * list N)) :
  (∀ c, (user_id, c) ∉ table) →
  filter (λ r : Z * list N, r.1 = user_id) table = [].
Proof.
  intros Hnone. induction table as [|[u0 c0] t IH]; [done|].
  rewrite filter_cons_False.
  - apply IH. intros c Hc. apply (Hnone c). by right.
  - cbn. intros ->. apply (Hnone c0). by left.
Qed.

Section Buttons.

Context `{Platform}.

(** The weather prompt (lines 289-297) sends the forecast before it
    touches the store.  When the insert succeeds the request is logged
    and the prompt is closed; when the statement fails nothing is logged
    and the prompt is closed all the same; when the connection fails the
    handler raises after the forecast was sent and the prompt stays open,
    so the next text is taken as a city again. *)
Theorem weather_turn_outcomes user_id text text2 d ud fs rg tr :
  text ≠ MENU →
  text2 ≠ MENU →
  truthy (ud !! AWAITING_CITY) = true →
  let city := Py.strip text in
  let forecast :=
    reply_text (Text (get_forecast city)) (SaveCityKeyboard (SAVE_CITY_ ++ city)) in
  let closed := <[AWAITING_CITY := PyBool false]> ud in
  handle_message user_id text (World d ud (NoFault :: fs) rg tr)
  = (Return (),
     World (with_weather_requests (weather_requests d ++ [(user_id, city)]) d)
           closed fs rg (tr ++ [forecast])) ∧
  handle_message user_id text (World d ud (StatementError :: fs) rg tr)
  = (Return (),
     World d closed fs rg (tr ++ [forecast; logger_error Alog_weather_request])) ∧
  (let r := handle_message user_id text (World d ud (ConnectError :: fs) rg tr) in
   r = (Raise UnboundLocalError,
        World d ud fs rg (tr ++ [forecast; logger_error Alog_weather_request])) ∧
   handle_message user_id text2 r.2 = weather_turn user_id text2 r.2).
Proof.
  intros Hm Hm2 Hc city forecast closed.
  rewrite !handle_message_weather by done. unfold weather_turn. fold city.
  split_and!.
  - mrun. reflexivity.
  - mrun. by rewrite <- app_assoc.
  - mrun. by rewrite <- app_assoc.
  - mrun. by rewrite handle_message_weather.
Qed.

(** A press on the weather button in the middle of a game (lines
    471-475), whatever fails in the store: the next message is answered
    with a forecast and leaves the game flag, the game rows and the
    results alone.  The forecast turn raises exactly when the connection
    or the cursor of its one store call fails; when it does not raise,
    the message after it is a turn of the game again, and when it raises
    the city prompt is still open and the message after it is taken as a
    city once more. *)
Theorem weather_press_during_game user_id game text text2 current_text current_markup w :
  In game GAMES →
  flag_of AWAITING_GAME w = Some (PyStr game) →
  text ≠ MENU →
  text2 ≠ MENU →
  let w1 := (handle_callback user_id D_WEATHER current_text current_markup w).2 in
  let r2 := handle_message user_id text w1 in
  let w2 := r2.2 in
  r2 = weather_turn user_id text w1 ∧
  flag_of AWAITING_GAME w2 = Some (PyStr game) ∧
  game_progress (db w2) = game_progress (db w) ∧
  game_results (db w2) = game_results (db w) ∧
  (r2.1 = Return () ↔
   hd NoFault (faults w) ≠ ConnectError ∧ hd NoFault (faults w) ≠ CursorError) ∧
  (r2.1 = Return () → handle_message user_id text2 w2 = engine game user_id text2 w2) ∧
  (r2.1 ≠ Return () → handle_message user_id text2 w2 = weather_turn user_id text2 w2).
Proof.
  intros Hin Hg Hm Hm2 w1 r2 w2.
  destruct w as [d ud fs rg tr]. unfold flag_of in Hg. cbn [user_data] in Hg.
  assert (Hw1 : ∃ tr1, w1 = World d (<[AWAITING_CITY := PyBool true]> ud) fs rg tr1).
  { subst w1. unfold handle_callback, edit_unless_shown.
    unfold mbind at 1, M_bind at 1. cbn [emit]. dec_goal; [|done].
    mrun. dec_goal; mred; by eexists. }
  destruct Hw1 as [tr1 Hw1]. subst w2 r2. clearbody w1. subst w1.
  pose proof flags_distinct as Hfd.
  assert (Hc1 : truthy (flag_of AWAITING_CITY
                  (World d (<[AWAITING_CITY := PyBool true]> ud) fs rg tr1)) = true)
    by (unfold flag_of; cbn; by rewrite lookup_insert_eq).
  rewrite (handle_message_weather user_id text _ Hm Hc1).
  split; [reflexivity|].
  cbn [faults].
  destruct fs as [|[] fs]; cbn [hd];
    match goal with
    | |- context [weather_turn user_id text ?W] =>
        let E := fresh "E" in
        remember (weather_turn user_id text W) as r eqn:E;
        unfold weather_turn in E; revert E; mrun; unfold set_flag; intros ->
    end; mproj.
  all: split; [by rewrite ?lookup_insert_ne|].
  all: do 2 (split; [reflexivity|]).
  all: split; [split; [try (intros [=]; fail); intros _; by split | try done; intros [? ?]; done]|].
  all: split; [try (intros [=]; fail); intros _ | try (intros Hr; by destruct Hr); intros _].
  all: first
    [ apply handle_message_engine; try done; unfold flag_of; cbn [user_data];
      [by rewrite lookup_insert_eq | by rewrite !lookup_insert_ne]
    | apply handle_message_weather; [done|]; unfold flag_of; cbn [user_data];
      by rewrite lookup_insert_eq ].
Qed.

(** The admin button (lines 477-482): the operator is notified exactly
    when the message is edited.  A press on a message that already shows
    the confirmation sends nothing to the operator. *)
Theorem admin_notified_only_on_edit user_id current_text current_markup w :
  let confirmation := u "Вы направили запрос Администратору." in
  handle_callback user_id D_ADMIN current_text current_markup w
  = (Return (),
     World (db w) (user_data w) (faults w) (rng w)
           (trace w ++
            logger_info ::
            (if decide (current_text = Some confirmation) then []
             else [edit_message_text (Text confirmation) MAIN_KEYBOARD;
                   send_message_admin (FAdminNotice user_id)]))).
Proof.
  intros confirmation. unfold handle_callback.
  unfold mbind at 1, M_bind at 1. cbn [emit].
  dec_goal; [discriminate|]. dec_goal; [|done]. subst confirmation.
  destruct w as [d ud fs rg tr].
  mproj. dec_goal; dec_goal; try congruence; try tauto; mrun; unfold emit; mproj;
    by rewrite <- ?app_assoc.
Qed.

(** Saving and then asking for the favourite (lines 484-500), for a user
    without a favourite, on a store that does not fail.  The city saved
    is the first field of what was typed.  When that field is not empty,
    the favourite button shows its forecast and opens no prompt.  When it
    is empty (the typed city began with an underscore), the empty city is
    stored, the favourite button answers as if nothing were stored and
    opens the city prompt. *)
Theorem saved_city_then_favorite user_id city ct ct' cm cm' d ud rg tr :
  (∀ c, (user_id, c) ∉ favorite_cities d) →
  let w := World d ud [] rg tr in
  let w1 := (handle_callback user_id (SAVE_CITY_ ++ city) ct cm w).2 in
  let w2 := (handle_callback user_id D_FAVORITE_WEATHER ct' cm' w1).2 in
  favorite_cities (db w1) = favorite_cities d ++ [(user_id, first_field city)] ∧
  db w2 = db w1 ∧
  (first_field city ≠ [] →
   user_data w2 = ud ∧
   sent w1 w2
   = logger_info ::
     (if decide (ct' ≠ Some (get_forecast (first_field city)) ∨ cm' ≠ MAIN_KEYBOARD)
      then [edit_message_text (Text (get_forecast (first_field city))) MAIN_KEYBOARD]
      else [])) ∧
  (first_field city = [] →
   user_data w2 = <[AWAITING_CITY := PyBool true]> ud).
Proof.
  intros Hnone w w1 w2.
  assert (Hw1 : ∃ tr1, w1 = World (with_favorite_cities
                                     (favorite_cities d ++ [(user_id, first_field city)]) d)
                                  ud [] rg tr1).
  { subst w1 w. rewrite handle_callback_save_city.
    unfold save_favorite_city. mrun.
    unfold insert_unique. rewrite decide_False by apply Hnone.
    unfold edit_unless_shown. dec_goal; mred; by eexists. }
  destruct Hw1 as [tr1 Hw1]. subst w2. clearbody w1. subst w1. mproj.
  split; [reflexivity|].
  unfold handle_callback, get_favorite_city, edit_unless_shown.
  unfold mbind at 1, M_bind at 1. cbn [emit].
  do 2 (dec_goal; [discriminate|]). dec_goal; [|done]. mrun. mproj.
  rewrite filter_app.
  rewrite (filter_no_row_of user_id (favorite_cities d) Hnone).
  rewrite filter_cons_True by done. cbn [app head fmap option_fmap option_map snd].
  destruct (first_field city) as [|c0 rest] eqn:Ef; mred;
    dec_goal; mred; unfold emit; mproj; rewrite <- ?app_assoc;
    (split_and!; [reflexivity | intros Hne | intros He]); try done.
  - split; [reflexivity|]. apply (sent_app (World d ud [] rg tr1)).
  - split; [reflexivity|]. apply (sent_app (World d ud [] rg tr1)).
Qed.

End Buttons.

Lemma weather_turn_outcomes_witness :
  let ud : gmap (list N) pyval := {[ AWAITING_CITY := PyBool true ]} in
  handle_message 1 (u "курск") (World empty_db ud [ConnectError] [] [])
  = (Raise UnboundLocalError,
     World empty_db ud [] []
           [reply_text (Text (get_forecast (u "курск")))
                       (SaveCityKeyboard (SAVE_CITY_ ++ u "курск"));
            logger_error Alog_weather_request]).
Proof.
  intros ud.
  refine (proj1 (proj2 (proj2
    (weather_turn_outcomes 1 (u "курск") (u "казань") empty_db ud [] [] [] _ _ _)))).
  - discriminate.
  - discriminate.
  - reflexivity.
Defined.

Lemma weather_press_during_game_witness :
  let w1 := (handle_callback 1 D_WEATHER None NoKeyboard DemoWorlds.cities_fresh).2 in
  let w2 := (handle_message 1 (u "курск") w1).2 in
  flag_of AWAITING_GAME w2 = Some (PyStr CITIES) ∧
  game_results (db w2) = [] ∧
  handle_message 1 (u "москва") w2 = cities_turn 1 (u "москва") w2.
Proof.
  intros w1 w2.
  destruct (weather_press_during_game 1 CITIES (u "курск") (u "москва") None NoKeyboard
              DemoWorlds.cities_fresh) as (_ & Hflag & _ & Hres & _ & Hturn & _).
  - unfold GAMES. cbn [In]. auto.
  - vm_compute; reflexivity.
  - discriminate.
  - discriminate.
  - split; [exact Hflag|]. split; [exact Hres|]. apply Hturn. vm_compute. reflexivity.
Defined.

Lemma saved_city_then_favorite_witness :
  let w := World empty_db ∅ [] [] [] in
  let w1 := (handle_callback 1 (SAVE_CITY_ ++ u "_омск") None NoKeyboard w).2 in
  let w2 := (handle_callback 1 D_FAVORITE_WEATHER None NoKeyboard w1).2 in
  favorite_cities (db w1) = [(1, [])] ∧
  user_data w2 = {[ AWAITING_CITY := PyBool true ]}.
Proof.
  intros w w1 w2.
  destruct (saved_city_then_favorite 1 (u "_омск") None None NoKeyboard NoKeyboard
              empty_db ∅ [] []) as (Hfav & _ & _ & Hempty).
  - intros c Hc. by apply elem_of_nil in Hc.
  - split; [exact Hfav|]. apply Hempty. reflexivity.
Defined.

(** ** What the handlers send *)

Section Emits.

Context {A B : Type} (P : event → Prop).

Lemma emits_ret (a : A) : emits P (mret a).
Proof. intros w. exists []. by rewrite app_nil_r. Qed.

Lemma emits_raise e : emits P (raise (A := A) e).
Proof. intros w. exists []. by rewrite app_nil_r. Qed.

Lemma emits_bind (m : M A) (k : A → M B) :
  emits P m → (∀ a, emits P (k a)) → emits P (m ≫= k).
Proof.
  intros Hm Hk w. unfold mbind, M_bind.
  destruct (Hm w) as (evs & Ht & Hp). destruct (m w) as [[a|e] w1]; cbn in *.
  - destruct (Hk a w1) as (evs' & Ht' & Hp'). exists (evs ++ evs').
    rewrite Ht', Ht, app_assoc. split; [done|]. by apply Forall_app.
  - by exists evs.
Qed.

Lemma emits_accessor name (dflt : A) stmt :
  P (logger_error name) → emits P (accessor name dflt stmt).
Proof.
  intros Hp w.
  destruct (accessor_cases name dflt stmt w) as (_ & _ & _ & [(_ & _ & ->) | (_ & -> & _)]).
  - exists []. by rewrite app_nil_r.
  - exists [logger_error name]. split; [done|]. by apply Forall_singleton.
Qed.

End Emits.

Section EmitsBasic.

Context (P : event → Prop).

Lemma emits_emit ev : P ev → emits P (emit ev).
Proof. intros Hp w. exists [ev]. split; [done|]. by apply Forall_singleton. Qed.

Lemma emits_set_flag key v : emits P (set_flag key v).
Proof. intros w. exists []. by rewrite app_nil_r. Qed.

Lemma emits_clear_flags : emits P clear_flags.
Proof. intros w. exists []. by rewrite app_nil_r. Qed.

Lemma emits_randint : emits P randint_1_100.
Proof.
  intros w. exists []. unfold randint_1_100, mbind, M_bind, next_random.
  destruct (rng w); cbn; by rewrite app_nil_r.
Qed.

Lemma emits_index_or_raise {A} (l : list A) i : emits P (index_or_raise l i).
Proof.
  unfold index_or_raise. destruct (py_index l i); [apply emits_ret|apply emits_raise].
Qed.

End EmitsBasic.

Ltac eleaf :=
  first
    [ apply emits_ret | apply emits_raise | apply emits_set_flag
    | apply emits_clear_flags | apply emits_randint | apply emits_index_or_raise
    | apply emits_accessor; intros ? ? [=]
    | apply emits_emit; intros ? ? [=]; subst; tauto
    | apply emits_emit; intros ? ? [=] ].

Ltac ego :=
  lazymatch goal with
  | |- emits _ (mbind _ _) => apply emits_bind; [ego | intros ?; ego]
  | |- emits _ (if decide _ then _ else _) => case_decide; ego
  | |- emits _ (if ?b then _ else _) => destruct b; ego
  | |- emits _ (match ?x with _ => _ end) => destruct x; ego
  | |- _ => first [eleaf | idtac]
  end.

Section CallbackEdits.

Context `{Platform}.

(** No button press ever edits the message to the text and keyboard it
    already shows, whatever the payload and whatever fails in the store
    (lines 471-544): each edit sits behind a comparison with what is
    displayed. *)
Theorem callback_never_repeats_edit user_id data current_text current_markup :
  emits (changes_message current_text current_markup)
        (handle_callback user_id data current_text current_markup).
Proof.
  unfold handle_callback, edit_unless_shown, get_favorite_city, save_favorite_city,
    start_game, update_game_state.
  ego.
Qed.

(** Starting City-Chain or Number-Guessing (lines 506-521) on a store
    that does not fail: whatever row the user had is replaced by score 0
    and the game's first state, with a target between 1 and 100 for the
    guessing game; the score of a game in progress is dropped without a
    row in [game_results]; and only [awaiting_game] is set, so a pending
    city prompt stays pending. *)
Theorem game_buttons_reset user_id current_text current_markup d ud rg tr :
  let w := World d ud [] rg tr in
  let wc := (handle_callback user_id D_GAME_CITIES current_text current_markup w).2 in
  let wg := (handle_callback user_id D_GAME_GUESS current_text current_markup w).2 in
  row_of user_id wc = Some (Progress (Some CITIES) 0 empty_state) ∧
  user_data wc = <[AWAITING_GAME := PyStr CITIES]> ud ∧
  game_results (db wc) = game_results d ∧
  (∃ t, 1 <= t <= 100 ∧
        row_of user_id wg
        = Some (Progress (Some GUESS) 0 (set_attempts 0 (set_target t empty_state)))) ∧
  user_data wg = <[AWAITING_GAME := PyStr GUESS]> ud ∧
  game_results (db wg) = game_results d.
Proof.
  intros w wc wg.
  assert (Hc : ∃ tr',
    wc = World (with_game_progress
                  (<[user_id := Progress (Some CITIES) 0 empty_state]> (game_progress d)) d)
               (<[AWAITING_GAME := PyStr CITIES]> ud) [] rg tr').
  { subst wc w. unfold handle_callback.
    unfold mbind at 1, M_bind at 1; cbn [emit].
    do 3 (dec_goal; [discriminate|]).
    change (Py.startswith D_GAME_CITIES SAVE_CITY_) with false; cbn iota.
    dec_goal; [discriminate|]. dec_goal; [|done].
    unfold edit_unless_shown; mrun. dec_goal; mred; by eexists. }
  assert (Hg : ∃ t tr' rg', 1 <= t <= 100 ∧
    wg = World (with_game_progress
                  (<[user_id := Progress (Some GUESS) 0
                                  (set_attempts 0 (set_target t empty_state))]>
                     (game_progress d)) d)
               (<[AWAITING_GAME := PyStr GUESS]> ud) [] rg' tr').
  { subst wg w. unfold handle_callback.
    unfold mbind at 1, M_bind at 1; cbn [emit].
    do 3 (dec_goal; [discriminate|]).
    change (Py.startswith D_GAME_GUESS SAVE_CITY_) with false; cbn iota.
    do 2 (dec_goal; [discriminate|]). dec_goal; [|done].
    unfold edit_unless_shown; mrun.
    destruct rg as [|k rg']; mred; dec_goal; mred; mproj;
      rewrite alter_insert_eq; cbn [game_name];
      eexists _, _, _; (split; [|reflexivity]);
      try match goal with
          | |- context [Z.of_nat (?a mod 100)] =>
              pose proof (Nat.mod_upper_bound a 100)
          end; lia. }
  destruct Hc as (trc & ->). destruct Hg as (t & trg & rg' & Ht & ->).
  mproj. split_and!; try reflexivity.
  - apply lookup_insert_eq.
  - exists t. split; [done|]. apply lookup_insert_eq.
Qed.

End CallbackEdits.

(** ** What a message can change in the store *)

(** A table property that the five writing accessors keep, when called
    as [handle_message] calls them, is kept by [handle_message] and by a
    whole conversation, whatever fails.  [Q] is what the property tells
    about the row [get_game_state] reads. *)
Section Frame.

Context `{Platform} (user_id : Z) (I : database → Prop).
Context (Q : option str * Z * jstate → Prop).

Hypothesis Hget : keeps I (get_game_state user_id) Q.
Hypothesis Hupd : ∀ gn sc st sc' st',
  Q (gn, sc, st) → gn ≠ None → sc <= sc' →
  keeps I (update_game_state user_id sc' st') (λ _, True).
Hypothesis Hres : ∀ g f, keeps I (save_game_result user_id g f) (λ _, True).
Hypothesis Haward : ∀ a, keeps I (award_achievement user_id a) (λ _, True).
Hypothesis Hstars : keeps I (update_stars user_id 10) (λ _, True).
Hypothesis Hlog : ∀ c, keeps I (log_weather_request user_id c) (λ _, True).

Ltac name_known :=
  first
    [ congruence
    | let Heq := fresh in
      intros Heq;
      match goal with
      | Hn : ¬ (_ ≠ Some _) |- _ => apply Hn; rewrite Heq; discriminate
      end ].

Ltac fleaf :=
  first
    [ apply keeps_emit | apply keeps_set_flag | apply keeps_clear_flags
    | apply keeps_raise | apply Hres | apply Haward | apply Hstars | apply Hlog
    | apply keeps_randint
    | eapply keeps_weaken; [apply keeps_index_or_raise | done]
    | eapply keeps_weaken; [apply keeps_random_choice | done]
    | eapply Hupd; [eassumption | name_known | lia]
    | by apply keeps_ret ].

Ltac fgo :=
  lazymatch goal with
  | |- keeps _ (mbind _ _) _ =>
      eapply keeps_bind with (Q1 := λ _, True); [fgo | intros ? _; fgo]
  | |- keeps _ (if decide _ then _ else _) _ => case_decide; fgo
  | |- keeps _ (if ?b then _ else _) _ => destruct b; fgo
  | |- keeps _ (match ?x with _ => _ end) _ => destruct x; fgo
  | |- _ => first [fleaf | idtac]
  end.

Lemma frame_cities_turn text : keeps I (cities_turn user_id text) (λ _, True).
Proof.
  unfold cities_turn.
  eapply keeps_bind; [apply Hget|]. intros [[gn sc] st] Hq. fgo.
Qed.

Lemma frame_guess_turn text : keeps I (guess_turn user_id text) (λ _, True).
Proof.
  assert (Hb : keeps I (guess_body user_id text) (λ _, True)).
  { unfold guess_body.
    eapply keeps_bind with (Q1 := λ _, True);
      [destruct (int_of_str _); [by apply keeps_ret|apply keeps_raise]|].
    intros g _.
    eapply keeps_bind; [apply Hget|]. intros [[gn sc] st] Hq. fgo. }
  intros w Hw. unfold guess_turn.
  destruct (Hb w Hw) as [Hdb _].
  destruct (guess_body user_id text w) as [[[]|[]] w']; by split.
Qed.

Lemma frame_quest_turn text : keeps I (quest_turn user_id text) (λ _, True).
Proof.
  unfold quest_turn.
  eapply keeps_bind; [apply Hget|]. intros [[gn sc] st] Hq. fgo.
Qed.

Lemma frame_logic_turn text : keeps I (logic_turn user_id text) (λ _, True).
Proof.
  unfold logic_turn.
  eapply keeps_bind; [apply Hget|]. intros [[gn sc] st] Hq. fgo.
Qed.

Lemma frame_handle_message text : keeps I (handle_message user_id text) (λ _, True).
Proof.
  unfold handle_message. case_decide; [fgo|].
  eapply keeps_bind; [apply keeps_get_flag|]. intros awaiting_city _.
  eapply keeps_bind; [apply keeps_get_flag|]. intros awaiting_game _.
  destruct (truthy awaiting_city); [unfold weather_turn; fgo|].
  repeat case_decide;
    auto using frame_cities_turn, frame_guess_turn, frame_quest_turn, frame_logic_turn.
  by apply keeps_ret.
Qed.

Lemma frame_run texts w : I (db w) → I (db (run user_id texts w)).
Proof.
  revert w. induction texts as [|text texts IH]; intros w Hw; [done|].
  cbn [run]. apply IH. by apply frame_handle_message.
Qed.

End Frame.

Lemma keeps_statement (I : database → Prop) name (stmt : database → unit * database) :
  (∀ d, I d → I (stmt d).2) → keeps I (accessor name () stmt) (λ _, True).
Proof. intros Hs. apply keeps_accessor; [|done]. intros d Hd. split; [by apply Hs|done]. Qed.

Lemma filter_snoc_other {A} (P : A → Prop) `{∀ x, Decision (P x)} (l : list A) (x : A) :
  ¬ P x → filter P (l ++ [x]) = filter P l.
Proof.
  intros Hx. rewrite filter_app, filter_cons_False by done.
  by rewrite filter_nil, app_nil_r.
Qed.

Lemma filter_insert_unique_other {A} `{EqDecision A} (P : A → Prop)
    `{∀ x, Decision (P x)} (l : list A) (x : A) :
  ¬ P x → filter P (insert_unique x l) = filter P l.
Proof. intros Hx. unfold insert_unique. case_decide; [done|]. by apply filter_snoc_other. Qed.

Lemma insert_unique_prefix {A} `{EqDecision A} (l0 l : list A) (x : A) :
  l0 `prefix_of` l → l0 `prefix_of` insert_unique x l.
Proof. intros Hp. unfold insert_unique. case_decide; [done|]. by apply prefix_app_r. Qed.

Section Conversation.

Context `{Platform}.

(** A conversation with one user, whatever is typed and whatever fails
    in the store (lines 279-454): the favourite cities stay as they were,
    every other user keeps the same progress row, star balance, badges,
    results and weather requests, and the user's own progress row is
    neither created nor deleted nor moved to another game. *)
Theorem conversation_leaves_others_alone user_id texts w :
  others_untouched user_id (db w) (db (run user_id texts w)).
Proof.
  apply (frame_run user_id (others_untouched user_id (db w)) (λ _, True)).
  - apply keeps_accessor; [|done]. intros d Hd. by split.
  - intros _ _ _ sc' st' _ _ _. apply keeps_statement.
    intros d (Hf & Hn & Ho). split_and!; cbn.
    + done.
    + rewrite lookup_alter_eq, <- Hn. by destruct (game_progress d !! user_id).
    + intros o Hne. destruct (Ho o Hne) as (? & ? & ? & ? & ?).
      split_and!; cbn; try done. by rewrite lookup_alter_ne.
  - intros g f. apply keeps_statement.
    intros d (Hf & Hn & Ho). split_and!; cbn; try done.
    intros o Hne. destruct (Ho o Hne) as (? & ? & ? & Hr & ?).
    split_and!; cbn; try done. rewrite <- Hr. apply filter_snoc_other. cbn. congruence.
  - intros a. apply keeps_statement.
    intros d (Hf & Hn & Ho). split_and!; cbn; try done.
    intros o Hne. destruct (Ho o Hne) as (? & ? & Ha & ? & ?).
    split_and!; cbn; try done. rewrite <- Ha. apply filter_insert_unique_other.
    cbn. congruence.
  - apply keeps_statement.
    intros d (Hf & Hn & Ho). split_and!; cbn; try done.
    intros o Hne. destruct (Ho o Hne) as (? & ? & ? & ? & ?).
    split_and!; cbn; try done. by rewrite lookup_insert_ne.
  - intros c. apply keeps_statement.
    intros d (Hf & Hn & Ho). split_and!; cbn; try done.
    intros o Hne. destruct (Ho o Hne) as (? & ? & ? & ? & Hw).
    split_and!; cbn; try done. rewrite <- Hw. apply filter_snoc_other. cbn. congruence.
  - split_and!; done.
Qed.

(** Over a conversation, whatever is typed and whatever fails in the
    store: [weather_requests], [game_results] and [user_achievements]
    keep every row they had, in place, and only get new rows at the end;
    the user's star balance never goes down. *)
Theorem conversation_only_adds user_id texts w :
  only_grows user_id (db w) (db (run user_id texts w)).
Proof.
  apply (frame_run user_id (only_grows user_id (db w)) (λ _, True)).
  - apply keeps_accessor; [|done]. intros d Hd. by split.
  - intros _ _ _ sc' st' _ _ _. apply keeps_statement. by intros d (? & ? & ? & ?).
  - intros g f. apply keeps_statement. intros d (? & ? & ? & ?).
    split_and!; cbn; try done. by apply prefix_app_r.
  - intros a. apply keeps_statement. intros d (? & ? & ? & ?).
    split_and!; cbn; try done. by apply insert_unique_prefix.
  - apply keeps_statement. intros d (? & ? & ? & Hs).
    split_and!; cbn; try done. rewrite lookup_insert_eq.
    destruct (user_stars d !! user_id); cbn in *; lia.
  - intros c. apply keeps_statement. intros d (? & ? & ? & ?).
    split_and!; cbn; try done. by apply prefix_app_r.
  - split_and!; done.
Qed.

(** Over a conversation, whatever is typed and whatever fails in the
    store: a progress row the user had at the start is still there at the
    end and its score is not lower; a wrong answer or a failed write
    never costs points. *)
Theorem conversation_never_lowers_score user_id texts w :
  score_kept user_id (db w) (db (run user_id texts w)).
Proof.
  apply (frame_run user_id (score_kept user_id (db w))
           (λ r, r.1.1 ≠ None →
                 ∀ r0, game_progress (db w) !! user_id = Some r0 → score r0 <= r.1.2)).
  - apply keeps_accessor; [|done]. intros d Hd. split; [exact Hd|].
    cbn. destruct (game_progress d !! user_id) as [r'|] eqn:E; cbn; [|done].
    intros _ r0 Hr0. destruct (Hd r0 Hr0) as (r'' & E' & Hle). by simplify_eq.
  - intros gn sc st sc' st' Hq Hne Hle. apply keeps_statement.
    intros d Hd r0 Hr0. destruct (Hd r0 Hr0) as (r' & E & _).
    cbn. rewrite lookup_alter_eq, E. cbn. eexists. split; [done|].
    cbn. specialize (Hq Hne r0 Hr0). cbn in Hq. lia.
  - intros g f. by apply keeps_statement.
  - intros a. by apply keeps_statement.
  - by apply keeps_statement.
  - intros c. by apply keeps_statement.
  - intros r0 Hr0. exists r0. split; [done|lia].
Qed.

Ltac cleaf :=
  first
    [ apply keeps_emit | apply keeps_set_flag | apply keeps_clear_flags
    | apply keeps_raise | apply keeps_randint
    | eapply keeps_weaken; [apply keeps_index_or_raise | done]
    | by apply keeps_ret ].

Ltac cgo :=
  lazymatch goal with
  | |- keeps _ (mbind _ _) _ =>
      eapply keeps_bind with (Q1 := λ _, True); [cgo | intros ? _; cgo]
  | |- keeps _ (if decide _ then _ else _) _ => case_decide; cgo
  | |- keeps _ (if ?b then _ else _) _ => destruct b; cgo
  | |- keeps _ (match ?x with _ => _ end) _ => destruct x; cgo
  | |- _ => first [cleaf | idtac]
  end.

(** A button press, whatever its payload and whatever fails in the store
    (lines 457-544), writes nothing but the presser's own favourite
    cities and progress row: the weather log, the badges, the stars and
    the results stay as they were, and so do the progress rows and the
    favourites of everybody else. *)
Theorem callback_writes_only_own_rows user_id data current_text current_markup w :
  only_own_choice user_id (db w)
    (db (handle_callback user_id data current_text current_markup w).2).
Proof.
  assert (Hstart : ∀ g, keeps (only_own_choice user_id (db w)) (start_game user_id g)
                          (λ _, True)).
  { intros g. apply keeps_statement. intros d (? & ? & ? & ? & Ho).
    split_and!; cbn; try done. intros o Hne. destruct (Ho o Hne) as [? ?].
    split; [|done]. by rewrite lookup_insert_ne. }
  assert (Hupd : ∀ sc st, keeps (only_own_choice user_id (db w))
                            (update_game_state user_id sc st) (λ _, True)).
  { intros sc st. apply keeps_statement. intros d (? & ? & ? & ? & Ho).
    split_and!; cbn; try done. intros o Hne. destruct (Ho o Hne) as [? ?].
    split; [|done]. by rewrite lookup_alter_ne. }
  assert (Hsave : ∀ c, keeps (only_own_choice user_id (db w))
                         (save_favorite_city user_id c) (λ _, True)).
  { intros c. apply keeps_statement. intros d (? & ? & ? & ? & Ho).
    split_and!; cbn; try done. intros o Hne. destruct (Ho o Hne) as [? Hf].
    split; [done|]. rewrite <- Hf. apply filter_insert_unique_other. cbn. congruence. }
  assert (Hfav : keeps (only_own_choice user_id (db w)) (get_favorite_city user_id)
                   (λ _, True)).
  { apply keeps_accessor; [|done]. intros d Hd. by split. }
  assert (Hk : keeps (only_own_choice user_id (db w))
                 (handle_callback user_id data current_text current_markup) (λ _, True)).
  { unfold handle_callback, edit_unless_shown. cgo;
      first [apply Hstart | apply Hupd | apply Hsave | apply Hfav]. }
  apply Hk. split_and!; done.
Qed.

End Conversation.

(** ** The forecast digest *)

Section ForecastDigest.

Import Forecast.

Context (py_format : json → str).

Lemma add_entry_cases daily_data entry daily_data' :
  add_entry py_format daily_data entry = Some daily_data' →
  (∃ date line, noon_date entry = Some date ∧ (date ∉ daily_data.*1) ∧
                entry_line py_format entry = Some line ∧
                daily_data' = daily_data ++ [(date, line)])
  ∨ (daily_data' = daily_data ∧
     ∀ date, noon_date entry = Some date → date ∈ daily_data.*1).
Proof.
  unfold add_entry, noon_date, entry_line.
  destruct (json_getitem entry K_DT_TXT) as [dt|]; cbn; [|done].
  destruct (json_str dt) as [dt_txt|]; cbn; [|done].
  destruct (contains NOON dt_txt) eqn:Hnoon.
  - rewrite andb_true_r. case_bool_decide as Hd; cbn.
    + destruct (json_getitem entry K_MAIN) as [main|]; cbn; [|done].
      destruct (json_getitem main K_TEMP) as [temp|]; cbn; [|done].
      destruct (json_getitem entry K_WEATHER) as [weather|]; cbn; [|done].
      destruct (json_first weather) as [first|]; cbn; [|done].
      destruct (json_getitem first K_DESCRIPTION) as [desc|]; cbn; [|done].
      intros [= <-]. left. eauto 10.
    + intros [= <-]. right. split; [done|]. intros date [= <-].
      exact Hd.
  - rewrite andb_false_r. intros [= <-]. right. split; [done|]. intros date [=].
Qed.

Lemma digest_inv entries : ∀ daily_data result,
  digest py_format daily_data entries = Some result →
  ∃ new,
    result = daily_data ++ new ∧
    (NoDup daily_data.*1 → NoDup result.*1) ∧
    (∀ date, date ∈ new.*1 ↔
             (date ∉ daily_data.*1) ∧ ∃ entry, entry ∈ entries ∧ noon_date entry = Some date) ∧
    (∀ date line, (date, line) ∈ new →
       ∃ i entry, entries !! i = Some entry ∧ noon_date entry = Some date ∧
                  entry_line py_format entry = Some line ∧
                  ∀ j e, (j < i)%nat → entries !! j = Some e → noon_date e ≠ Some date).
Proof.
  induction entries as [|e rest IH]; intros acc result Hd; cbn in Hd.
  - injection Hd as <-. exists []. rewrite app_nil_r. split_and!; [done|done| |].
    + intros date. split; [intros Hin; by apply elem_of_nil in Hin|].
      intros (_ & entry & Hin & _). by apply elem_of_nil in Hin.
    + intros date line Hin. by apply elem_of_nil in Hin.
  - destruct (add_entry py_format acc e) as [acc1|] eqn:Hadd; cbn in Hd; [|done].
    destruct (IH _ _ Hd) as (new & -> & Hnd & Hmem & Hfirst).
    apply add_entry_cases in Hadd
      as [(date0 & line0 & Hnoon & Hfresh & Hline & ->) | [-> Hold]].
    + exists ((date0, line0) :: new). split_and!.
      * by rewrite <- app_assoc.
      * intros Hacc. apply Hnd. rewrite fmap_app. apply NoDup_app.
        split; [done|]. split; [|apply NoDup_singleton].
        intros x Hx Hx'. apply list_elem_of_singleton in Hx'. by subst.
      * intros date. rewrite fmap_cons, elem_of_cons. cbn. split.
        -- intros [-> | Hin].
           ++ split; [done|]. exists e. split; [by left|done].
           ++ apply Hmem in Hin as (Hn & entry & Hin & He).
              rewrite fmap_app, elem_of_app in Hn.
              split; [tauto|]. exists entry. split; [by right|done].
        -- intros (Hn & entry & Hin & He).
           destruct (decide (date = date0)) as [->|Hne]; [by left|]. right.
           apply Hmem. split.
           ++ rewrite fmap_app, elem_of_app. intros [?|Hx]; [done|].
              apply list_elem_of_singleton in Hx. done.
           ++ exists entry. split; [|done].
              apply elem_of_cons in Hin as [-> | Hin]; [congruence|done].
      * intros date line Hin. apply elem_of_cons in Hin as [[= -> ->] | Hin].
        -- exists O, e. split_and!; [done|done|done|]. intros j e' Hj. lia.
        -- assert (Hne : date ≠ date0).
           { intros ->. assert (Hin' : date0 ∈ new.*1).
             { apply list_elem_of_fmap. by exists (date0, line). }
             apply Hmem in Hin' as [Hn _]. apply Hn.
             rewrite fmap_app, elem_of_app. right. by apply list_elem_of_singleton. }
           destruct (Hfirst _ _ Hin) as (i & entry & Hi & He & Hl & Hbefore).
           exists (S i), entry. split_and!; [done|done|done|].
           intros [|j] e' Hj He'; cbn in He'.
           ++ injection He' as <-. congruence.
           ++ apply (Hbefore j); [lia|done].
    + exists new. split_and!; [done|done| |].
      * intros date. rewrite Hmem. split.
        -- intros (Hn & entry & Hin & He). split; [done|].
           exists entry. split; [by right|done].
        -- intros (Hn & entry & Hin & He). split; [done|].
           exists entry. split; [|done].
           apply elem_of_cons in Hin as [-> | Hin]; [|done].
           destruct Hn. by apply Hold.
      * intros date line Hin.
        destruct (Hfirst _ _ Hin) as (i & entry & Hi & He & Hl & Hbefore).
        exists (S i), entry. split_and!; [done|done|done|].
        intros [|j] e' Hj He'; cbn in He'.
        -- injection He' as <-. intros Hnoon.
           assert (Hin' : date ∈ new.*1).
           { apply list_elem_of_fmap. by exists (date, line). }
           apply Hmem in Hin' as [Hn _]. apply Hn. by apply Hold.
        -- apply (Hbefore j); [lia|done].
Qed.

(** The digest of an answer with code "200", when nothing raises (lines
    256-276): the text is the header followed by one line per day, for
    exactly the days that have an entry stamped 12:00:00, no day twice;
    the line of a day is made from the first entry of that day stamped
    12:00:00, and entries at other hours contribute nothing. *)
Theorem forecast_one_line_per_day city data text :
  json_getitem data K_COD = Some (JStr OK_200) →
  get_forecast py_format city (Some data) = (text, false) →
  ∃ entries lines,
    json_getitem data K_LIST ≫= json_iter = Some entries ∧
    text = header city ++ join NEWLINE lines.*2 ∧
    NoDup lines.*1 ∧
    (∀ date, date ∈ lines.*1 ↔ ∃ entry, entry ∈ entries ∧ noon_date entry = Some date) ∧
    (∀ date line, (date, line) ∈ lines →
       ∃ i entry, entries !! i = Some entry ∧ noon_date entry = Some date ∧
                  entry_line py_format entry = Some line ∧
                  ∀ j e, (j < i)%nat → entries !! j = Some e → noon_date e ≠ Some date).
Proof.
  intros Hcod. unfold get_forecast. cbn. rewrite Hcod. cbn.
  rewrite bool_decide_eq_true_2 by done.
  destruct (json_getitem data K_LIST ≫= json_iter) as [entries|]; cbn; [|done].
  destruct (digest py_format [] entries) as [lines|] eqn:Hd; cbn; [|done].
  intros [= <-]. exists entries, lines.
  destruct (digest_inv _ _ _ Hd) as (new & Hnew & Hnd & Hmem & Hfirst).
  cbn in Hnew. subst new. split_and!; [done|done| | |done].
  - apply Hnd. constructor.
  - intros date. rewrite Hmem. cbn. split; [tauto|]. intros ?. split; [|done].
    apply not_elem_of_nil.
Qed.

End ForecastDigest.

Example forecast_demo :
  Forecast.get_forecast Forecast.demo_format (u "Омск") (Some Forecast.demo_answer)
  = (u "Прогноз на 5 дней в Омск:" ++ [10%N]
     ++ u "2024-05-01: 5°C, ясно" ++ [10%N]
     ++ u "2024-05-02: 7°C, снег", false).
Proof. vm_compute. reflexivity. Qed.

Example forecast_unknown_city :
  Forecast.get_forecast Forecast.demo_format (u "Омск")
    (Some (Forecast.JObj {[ Forecast.K_COD := Forecast.JStr (u "404") ]}))
  = (Forecast.T_NOT_FOUND, false).
Proof. vm_compute. reflexivity. Qed.

Lemma forecast_one_line_per_day_witness :
  let text :=
    (Forecast.get_forecast Forecast.demo_format (u "Омск") (Some Forecast.demo_answer)).1 in
  Forecast.json_getitem Forecast.demo_answer Forecast.K_COD
  = Some (Forecast.JStr Forecast.OK_200) ∧
  ∃ entries lines,
    Forecast.json_getitem Forecast.demo_answer Forecast.K_LIST ≫= Forecast.json_iter
    = Some entries ∧
    text = Forecast.header (u "Омск") ++ Forecast.join Forecast.NEWLINE lines.*2 ∧
    NoDup lines.*1 ∧
    (∀ date, date ∈ lines.*1 ↔
             ∃ entry, entry ∈ entries ∧ Forecast.noon_date entry = Some date) ∧
    (∀ date line, (date, line) ∈ lines →
       ∃ i entry, entries !! i = Some entry ∧ Forecast.noon_date entry = Some date ∧
                  Forecast.entry_line Forecast.demo_format entry = Some line ∧
                  ∀ j e, (j < i)%nat → entries !! j = Some e →
                         Forecast.noon_date e ≠ Some date).
Proof.
  intros text. split; [vm_compute; reflexivity|].
  apply (forecast_one_line_per_day Forecast.demo_format (u "Омск") Forecast.demo_answer text);
    vm_compute; reflexivity.
Defined.
